(** * Shallow embedding of aiida's plugin loader, MSONable data wrapper and
      the [verdi computer setup] default-mpiprocs rule. *)

From Stdlib Require Import List Ascii String Bool ZArith Lia.
Import ListNotations.

(** ** Python strings

    A Python [str] is modelled as a list of characters; the string methods
    used by [aiida/plugins/loader.py] are written out below. *)
Module PyStr.

Definition pystr := list ascii.

Definition lit (s : string) : pystr := list_ascii_of_string s.

Definition dot : ascii := "."%char.

(** [prefix.startswith]: is [p] a prefix of [s]. *)
Fixpoint startswith (s p : pystr) {struct p} : bool :=
  match p, s with
  | [], _ => true
  | c :: p', d :: s' => Ascii.eqb c d && startswith s' p'
  | _ :: _, [] => false
  end.

(** [a == b] on strings. *)
Definition str_eqb (a b : pystr) : bool :=
  if list_eq_dec ascii_dec a b then true else false.

(** [sub in s]. *)
Fixpoint contains (s sub : pystr) : bool :=
  startswith s sub || match s with [] => false | _ :: s' => contains s' sub end.

(** [s.endswith('.')]. *)
Definition endswith_dot (s : pystr) : bool :=
  match rev s with
  | c :: _ => Ascii.eqb c dot
  | [] => false
  end.

(** [s.count('.')]: for a one-character separator the non-overlapping count
    is the number of occurrences. *)
Definition count_dot (s : pystr) : nat :=
  List.length (filter (fun c => Ascii.eqb c dot) s).

(** Left-to-right splitting as CPython's [str.split(sep, maxsplit)] does it:
    at each position, if splits remain and [sep] starts here, the current
    piece is emitted and the [length sep] characters of the separator are
    skipped ([skip] counts the characters still to skip); otherwise the
    character joins the current piece [cur] (kept reversed).  [None] for
    [maxsplit] is Python's default [-1] (no limit). *)
Fixpoint split_go (sep : pystr) (maxsplit : option nat) (skip : nat)
    (s cur : pystr) : list pystr :=
  match s with
  | [] => [rev cur]
  | c :: s' =>
    match skip with
    | S k => split_go sep maxsplit k s' cur
    | O =>
      if match maxsplit with Some 0 => false | _ => true end
         && startswith s sep
      then rev cur :: split_go sep (option_map pred maxsplit)
                                   (pred (List.length sep)) s' []
      else split_go sep maxsplit 0 s' (c :: cur)
    end
  end.

(** [s.rsplit(sep, maxsplit)]: CPython takes separators from the right,
    which is left-to-right splitting of the reversed string by the reversed
    separator.  An empty separator raises [ValueError] ([None] here). *)
Definition rsplit (s sep : pystr) (maxsplit : option nat)
    : option (list pystr) :=
  match sep with
  | [] => None
  | _ => Some (rev (map (@rev ascii) (split_go (rev sep) maxsplit 0 (rev s) [])))
  end.

(** [s[:-1]]. *)
Definition drop_last (s : pystr) : pystr := firstn (List.length s - 1) s.

End PyStr.

(** ** [aiida/plugins/loader.py] *)
Module Loader.
Import PyStr.

Inductive exn :=
| MissingPluginError
| DbContentError (msg : pystr)
| ValueError
| IndexError.

Inductive result (A : Type) :=
| Ok (a : A)
| Err (e : exn).
Arguments Ok {A} a.
Arguments Err {A} e.

(** [strip_prefix(string, prefix)]:
    [if string.startswith(prefix): return string.rsplit(prefix)[1]]. *)
Definition strip_prefix (string prefix : pystr) : result pystr :=
  if startswith string prefix then
    match rsplit string prefix None with
    | None => Err ValueError
    | Some pieces =>
      match nth_error pieces 1 with
      | Some r => Ok r
      | None => Err IndexError
      end
    end
  else Ok string.

(** [get_plugin_type_from_type_string]. *)
Definition get_plugin_type_from_type_string (type_string : pystr)
    : result pystr :=
  let type_string :=
    match type_string with [] => lit "node.Node." | _ => type_string end in
  if negb (endswith_dot type_string) then Err (DbContentError type_string)
  else Ok (drop_last type_string).

(** [get_query_type_from_type_string]. *)
Definition get_query_type_from_type_string (type_string : pystr)
    : result pystr :=
  match type_string with
  | [] => Ok []
  | _ =>
    if negb (endswith_dot type_string) || (count_dot type_string =? 1)
    then Err (DbContentError type_string)
    else
      match rsplit type_string [dot] (Some 2) with
      | Some [type_path; _type_class; _sep] => Ok (type_path ++ [dot])
      | _ => Err ValueError
      end
  end.

(** [type_string_to_entry_point_group_map], as the list of its items in the
    order of the literal.  [.iteritems()] is Python 2's; CPython 2.7 visits
    these keys as ["calculation.job."], ["calculation."], ["data."],
    ["code."], ["node."], which differs from this order only among prefixes
    that no string starts with together. *)
Definition type_string_to_entry_point_group_map : list (pystr * pystr) :=
  [ (lit "calculation.job.", lit "aiida.calculations");
    (lit "calculation.", lit "aiida.calculations");
    (lit "code.", lit "aiida.code");
    (lit "data.", lit "aiida.data");
    (lit "node.", lit "aiida.node") ].

(** The exceptions [load_entry_point] of [aiida.plugins.entry_point] raises. *)
Inductive entry_point_error :=
| MissingEntryPointError
| MultipleEntryPointError
| LoadingEntryPointError.

Section LoadPlugin.

(** The plugin classes, the base [Data] class, and the entry-point registry
    ([load_entry_point group name]), which lives outside this module. *)
Variable plugin : Type.
Variable Data : plugin.
Variable load_entry_point : pystr -> pystr -> plugin + entry_point_error.

(** Outcome of [load_plugin], together with the registry lookups
    [(group, entry_point)] it performed, in order. *)
Definition lookups := list (pystr * pystr).

(** The [for prefix, group in ...] loop of [load_plugin]. *)
Fixpoint scan_prefixes (base_path : pystr) (table : list (pystr * pystr))
    : lookups * result plugin :=
  match table with
  | [] => ([], Err MissingPluginError)
  | (prefix, group) :: rest =>
    if startswith base_path prefix then
      match strip_prefix base_path prefix with
      | Err e => ([], Err e)
      | Ok entry_point =>
        ([(group, entry_point)],
         match load_entry_point group entry_point with
         | inl p => Ok p
         | inr _ => Err MissingPluginError
         end)
      end
    else scan_prefixes base_path rest
  end.

(** [load_plugin(plugin_type)]. *)
Definition load_plugin (plugin_type : pystr) : lookups * result plugin :=
  if list_eq_dec ascii_dec plugin_type (lit "data.Data") then ([], Ok Data)
  else
    match rsplit plugin_type [dot] (Some 1) with
    | Some [base_path; _class_name] =>
      let base_path :=
        if count_dot base_path =? 0 then base_path ++ [dot] ++ base_path
        else base_path in
      scan_prefixes base_path type_string_to_entry_point_group_map
    | _ => ([], Err MissingPluginError)
    end.

End LoadPlugin.

(** The anchored strip the spec describes for [strip_prefix]: drop the
    leading [prefix] once, keep the rest of the string verbatim. *)
Definition strip_prefix_spec (string prefix : pystr) : pystr :=
  if startswith string prefix then skipn (List.length prefix) string else string.

Definition s_calc_job := lit "calculation.job.".
Definition s_calcs := lit "aiida.calculations".

(** [get_type_string_from_class_path(class_path)]: strip, in order, each
    prefix of the tuple if present, then collapse ["node.Node."] to [""]. *)
Definition class_path_prefixes : list pystr :=
  [ lit "aiida.orm."; lit "implementation.general.";
    lit "implementation.django."; lit "implementation.sqlalchemy." ].

Fixpoint strip_prefixes (class_path : pystr) (prefixes : list pystr)
    : result pystr :=
  match prefixes with
  | [] => Ok class_path
  | prefix :: rest =>
    match strip_prefix class_path prefix with
    | Ok class_path => strip_prefixes class_path rest
    | Err e => Err e
    end
  end.

Definition get_type_string_from_class_path (class_path : pystr) : result pystr :=
  match strip_prefixes class_path class_path_prefixes with
  | Ok class_path =>
    Ok (if str_eqb class_path (lit "node.Node.") then [] else class_path)
  | Err e => Err e
  end.

(** Outcome of [get_type_string_from_class]: a type string, an exception of
    the loader, or the [KeyError] of [entry_point_group_to_module_path_map]. *)
Inductive type_string_outcome :=
| TypeString (s : pystr)
| LoaderError (e : exn)
| GroupKeyError (group : pystr).

Section TypeStringFromClass.

(** [get_entry_point_from_class(class_module, class_name)] (in
    [aiida.plugins.entry_point]) gives the group and the entry point of a
    registered class (the entry point by its [name]), [(None, None)]
    otherwise; [if group and entry_point] takes an empty group as absent
    (an entry point object is always true).  The map
    [entry_point_group_to_module_path_map] gives a group's module path. *)
Variable get_entry_point_from_class : pystr -> pystr -> option (pystr * pystr).
Variable entry_point_group_to_module_path_map : pystr -> option pystr.

(** [get_type_string_from_class(class_module, class_name)]. *)
Definition get_type_string_from_class (class_module class_name : pystr)
    : type_string_outcome :=
  let orm_class :=
    match get_entry_point_from_class class_module class_name with
    | Some ((_ :: _) as group, entry_point_name) =>
      match entry_point_group_to_module_path_map group with
      | Some module_base_path =>
        inl (module_base_path ++ [dot] ++ entry_point_name ++ [dot]
             ++ class_name ++ [dot])
      | None => inr group
      end
    | _ => inl (class_module ++ [dot] ++ class_name ++ [dot])
    end in
  match orm_class with
  | inr group => GroupKeyError group
  | inl orm_class =>
    match get_type_string_from_class_path orm_class with
    | Ok s => TypeString s
    | Err e => LoaderError e
    end
  end.

End TypeStringFromClass.

End Loader.

(** ** [aiida/orm/nodes/data/msonable.py] *)
Module Msonable.
Import PyStr.

(** A Python [float]: a finite IEEE-754 double (identified by an integer code
    of its value) or one of the three special values. *)
Inductive pyfloat :=
| Finite (code : Z)
| PosInf
| NegInf
| NaN.

(** How an attribute looks up on an object: absent, present but not callable,
    present and callable ([hasattr] / [callable(getattr(...))]). *)
Inductive attr := Absent | NonCallable | CallableAttr.

(** The answers of the [isinstance]/[callable]/[hasattr] queries the module
    makes about a value. *)
Record pyclass := mk_pyclass {
  isa_datetime : bool;
  isa_uuid : bool;
  isa_ndarray : bool;
  isa_generic : bool;
  isa_objectid : bool;
  isa_msonable : bool;
  is_callable : bool;
  attr_as_dict : attr;
  attr_from_dict : attr
}.

#[local] Set Warnings "-register-all".

(** Python values: JSON-like builtins, and other objects given by their
    class and an identity. *)
Inductive pyval :=
| PNone
| PBool (b : bool)
| PInt (n : Z)
| PFloat (f : pyfloat)
| PStr (s : pystr)
| PList (l : list pyval)
| PDict (kvs : list (pystr * pyval))
| PObj (cls : pyclass) (oid : Z).

(** Builtin values ([None], [bool], [int], [float], [str], [list], [dict])
    are none of the special classes and are not callable. *)
Definition builtin_class : pyclass :=
  mk_pyclass false false false false false false false Absent Absent.

Definition classof (v : pyval) : pyclass :=
  match v with
  | PObj c _ => c
  | _ => builtin_class
  end.

(** The behaviour of objects and of the external helpers the module calls:
    [str(obj)], [obj.dtype.__str__()], [obj.tolist()], [obj.real.tolist()],
    [obj.imag.tolist()], [obj.item()], monty's [_serialize_callable(obj)],
    [obj.as_dict()] (raising the exception named on the right), and whether
    [import bson] succeeded. *)
Class PyObjOps := {
  obj_str : pyval -> pystr;
  obj_dtype_str : pyval -> pystr;
  obj_tolist : pyval -> pyval;
  obj_real_tolist : pyval -> pyval;
  obj_imag_tolist : pyval -> pyval;
  obj_item : pyval -> pyval;
  serialize_callable : pyval -> pyval;
  obj_as_dict : pyval -> pyval + pystr;
  bson_imported : bool
}.

Section Codec.
Context `{PyObjOps}.

Definition s_module := lit "@module".
Definition s_class := lit "@class".
Definition s_Infinity := lit "Infinity".
Definition s_mInfinity := lit "-Infinity".
Definition s_NaN := lit "NaN".

(** [JSONPreprocessor.process_nan]: [value == inf], [value == -inf] and
    [value != value] hold only of the float values [inf], [-inf], [nan]. *)
Definition pre_process_nan (value : pyval) : pyval :=
  match value with
  | PFloat PosInf => PStr s_Infinity
  | PFloat NegInf => PStr s_mInfinity
  | PFloat NaN => PStr s_NaN
  | _ => value
  end.

(** [JSONPreprocessor.process_additional], branch by branch; [np] is always
    imported by the module, [bson] may not be. *)
Definition pre_process_additional (obj : pyval) : pyval :=
  let obj :=
    if isa_datetime (classof obj) then
      PDict [(s_module, PStr (lit "datetime")); (s_class, PStr (lit "datetime"));
             (lit "string", PStr (obj_str obj))]
    else if isa_uuid (classof obj) then
      PDict [(s_module, PStr (lit "uuid")); (s_class, PStr (lit "UUID"));
             (lit "string", PStr (obj_str obj))]
    else obj in
  let step :=
    if isa_ndarray (classof obj) then
      if startswith (obj_dtype_str obj) (lit "complex") then
        inl (PDict [(s_module, PStr (lit "numpy")); (s_class, PStr (lit "array"));
                    (lit "dtype", PStr (obj_dtype_str obj));
                    (lit "data", PList [obj_real_tolist obj; obj_imag_tolist obj])])
      else
        inl (PDict [(s_module, PStr (lit "numpy")); (s_class, PStr (lit "array"));
                    (lit "dtype", PStr (obj_dtype_str obj));
                    (lit "data", obj_tolist obj)])
    else if isa_generic (classof obj) then inr (obj_item obj)
    else inl obj in
  match step with
  | inr item => item
  | inl obj =>
    let obj :=
      if bson_imported && isa_objectid (classof obj) then
        PDict [(s_module, PStr (lit "bson.objectid")); (s_class, PStr (lit "ObjectId"));
               (lit "oid", PStr (obj_str obj))]
      else obj in
    if is_callable (classof obj) && negb (isa_msonable (classof obj))
    then serialize_callable obj
    else obj
  end.

(** [JSONPreprocessor.process]: recurse into lists and dict values, apply
    [process_additional] then [process_nan] to every other value. *)
Fixpoint pre_process (obj : pyval) : pyval :=
  match obj with
  | PList l => PList (map pre_process l)
  | PDict kvs => PDict (map (fun kv => (fst kv, pre_process (snd kv))) kvs)
  | _ => pre_process_nan (pre_process_additional obj)
  end.

(** [JSONPostprocessor.process_nan]: [obj == 'Infinity'] etc. hold only of
    strings. *)
Definition post_process_nan (obj : pyval) : pyval :=
  match obj with
  | PStr s =>
    if str_eqb s s_Infinity then PFloat PosInf
    else if str_eqb s s_mInfinity then PFloat NegInf
    else if str_eqb s s_NaN then PFloat NaN
    else obj
  | _ => obj
  end.

(** [JSONPostprocessor.process_additional] is monty's
    [MontyDecoder().process_decoded(obj)], which returns a value that is
    neither a list nor a dict unchanged; [process] only calls it on such
    values. *)
Definition post_process_additional (obj : pyval) : pyval := obj.

(** [JSONPostprocessor.process]: [process_nan] then [process_additional] on
    every value that is neither a list nor a dict. *)
Fixpoint post_process (obj : pyval) : pyval :=
  match obj with
  | PList l => PList (map post_process l)
  | PDict kvs => PDict (map (fun kv => (fst kv, post_process (snd kv))) kvs)
  | _ => post_process_additional (post_process_nan obj)
  end.

(** *** [MsonableData.__init__] *)

Record node := mk_node {
  attributes : list (pystr * pyval);
  cached_obj : option pyval
}.

Inductive init_error :=
| TypeError (msg : pystr)
| Raised (exc : pystr)
| AttributeError.

(** Modelled from the spec: [Data.__init__] (aiida's base data entity, not
    in the sources) builds the in-memory node and records no attribute. *)
Definition data_init (n : node) : node := n.

(** Modelled from the spec: [set_attribute_many] (not in the sources) sets
    every key of a mapping as an attribute, a later key overwriting; its
    argument must be a dict ([.items()]). *)
Definition set_attribute (attrs : list (pystr * pyval)) (kv : pystr * pyval)
    : list (pystr * pyval) :=
  filter (fun kw => negb (str_eqb (fst kw) (fst kv))) attrs ++ [kv].

Definition set_attribute_many (n : node) (v : pyval) : node + init_error :=
  match v with
  | PDict kvs =>
    inl (mk_node (fold_left set_attribute kvs (attributes n)) (cached_obj n))
  | _ => inr AttributeError
  end.

Definition method_check (name : string) (a : attr) : option init_error :=
  match a with
  | CallableAttr => None
  | _ => Some (TypeError (lit ("the `obj` argument does not have the required `"
                               ++ name ++ "` method.")))
  end.

(** [MsonableData(obj)]: the node as it is after the constructor returns or
    raises, with the exception raised if any. *)
Definition msonable_init (obj : pyval) (self : node) : node * option init_error :=
  match obj with
  | PNone => (self, Some (TypeError (lit "the `obj` argument cannot be `None`.")))
  | _ =>
    if negb (isa_msonable (classof obj)) then
      (self, Some (TypeError
        (lit "the `obj` argument needs to implement the ``MSONable`` class.")))
    else
      match method_check "as_dict" (attr_as_dict (classof obj)) with
      | Some e => (self, Some e)
      | None =>
        match method_check "from_dict" (attr_from_dict (classof obj)) with
        | Some e => (self, Some e)
        | None =>
          let self := data_init self in
          let self := mk_node (attributes self) (Some obj) in
          match obj_as_dict obj with
          | inr exc => (self, Some (Raised exc))
          | inl d =>
            match set_attribute_many self (pre_process d) with
            | inl self' => (self', None)
            | inr e => (self, Some e)
            end
          end
        end
      end
  end.

End Codec.

(** Nested induction on Python values. *)
Section PyvalInd.
Variable P : pyval -> Prop.
Hypothesis HNone : P PNone.
Hypothesis HBool : forall b, P (PBool b).
Hypothesis HInt : forall n, P (PInt n).
Hypothesis HFloat : forall f, P (PFloat f).
Hypothesis HStr : forall s, P (PStr s).
Hypothesis HList : forall l, Forall P l -> P (PList l).
Hypothesis HDict : forall kvs, Forall (fun kv => P (snd kv)) kvs -> P (PDict kvs).
Hypothesis HObj : forall c o, P (PObj c o).

Fixpoint pyval_ind' (v : pyval) : P v :=
  match v with
  | PNone => HNone
  | PBool b => HBool b
  | PInt n => HInt n
  | PFloat f => HFloat f
  | PStr s => HStr s
  | PList l =>
    HList l ((fix go (l : list pyval) : Forall P l :=
                match l with
                | [] => Forall_nil _
                | x :: r => Forall_cons _ (pyval_ind' x) (go r)
                end) l)
  | PDict kvs =>
    HDict kvs ((fix go (l : list (pystr * pyval)) : Forall (fun kv => P (snd kv)) l :=
                  match l with
                  | [] => Forall_nil _
                  | x :: r => Forall_cons _ (pyval_ind' (snd x)) (go r)
                  end) kvs)
  | PObj c o => HObj c o
  end.
End PyvalInd.

(** The serialized mappings of the round-trip contract: JSON values (no
    other objects) whose floats may also be [inf], [-inf] or [nan]. *)
Fixpoint json_safe (v : pyval) : bool :=
  match v with
  | PNone | PBool _ | PInt _ | PFloat _ | PStr _ => true
  | PList l => forallb json_safe l
  | PDict kvs => forallb (fun kv => json_safe (snd kv)) kvs
  | PObj _ _ => false
  end.

Definition sentinel (s : pystr) : bool :=
  str_eqb s s_Infinity || str_eqb s s_mInfinity || str_eqb s s_NaN.

(** No string leaf is one of the three sentinel strings. *)
Fixpoint no_sentinel_string (v : pyval) : bool :=
  match v with
  | PStr s => negb (sentinel s)
  | PList l => forallb no_sentinel_string l
  | PDict kvs => forallb (fun kv => no_sentinel_string (snd kv)) kvs
  | _ => true
  end.

(** Object behaviour for concrete evaluations: [bson] imported, objects
    printing as the empty string, [obj.as_dict()] given. *)
Definition mk_ops (as_dict : pyval -> pyval + pystr) : PyObjOps := {|
  obj_str := fun _ => [];
  obj_dtype_str := fun _ => lit "float64";
  obj_tolist := fun _ => PList [];
  obj_real_tolist := fun _ => PList [];
  obj_imag_tolist := fun _ => PList [];
  obj_item := fun _ => PNone;
  serialize_callable := fun _ => PDict [(s_module, PStr (lit "builtins"))];
  obj_as_dict := as_dict;
  bson_imported := true
|}.

(** Values used in concrete evaluations: a fresh node, the class of a
    plain [MSONable] object, and a callable [MSONable] subclass of
    [datetime]. *)
Definition node0 := mk_node [] None.

Definition mson_class := mk_pyclass false false false false false true false
                                    CallableAttr CallableAttr.

Definition callable_datetime :=
  mk_pyclass true false false false false true true CallableAttr CallableAttr.

(** *** [MsonableData._get_object] *)

Inductive get_error :=
| KeyError (key : pystr)
| ImportError (msg : pystr)
| UncaughtError
| FromDictRaised (exc : pystr).

(** [attributes[key]] on a dict. *)
Definition dict_get (kvs : list (pystr * pyval)) (key : pystr) : option pyval :=
  option_map snd (find (fun kv => str_eqb (fst kv) key) kvs).

Section GetObject.
(** Python classes, [importlib.import_module] (a module given as its
    [getattr]; [None] when it raises [ImportError]) and [cls.from_dict]
    (raising the exception named on the right). *)
Variable pyclass_obj : Type.
Variable import_module : pystr -> option (pystr -> option pyclass_obj).
Variable from_dict : pyclass_obj -> pyval -> pyval + pystr.

Definition msg_cannot_import (module_name : pystr) : pystr :=
  lit "the objects module `" ++ module_name ++ lit "` can not be imported.".

Definition msg_no_class (module_name class_name : pystr) : pystr :=
  lit "the objects module `" ++ module_name ++ lit "` does not contain the class `"
  ++ class_name ++ lit "`.".

(** [_get_object()] (and the [obj] property): the cached object, or the one
    rebuilt from the decoded attributes, then cached.  An [import_module] on
    a non-string, or a [getattr] with a non-string name, raises an exception
    the method does not catch ([UncaughtError]). *)
Definition get_object (self : node) : node * (pyval + get_error) :=
  match cached_obj self with
  | Some obj => (self, inl obj)
  | None =>
    let attributes := map (fun kv => (fst kv, post_process (snd kv)))
                          (Msonable.attributes self) in
    match dict_get attributes s_class with
    | None => (self, inr (KeyError s_class))
    | Some class_name =>
      match dict_get attributes s_module with
      | None => (self, inr (KeyError s_module))
      | Some (PStr module_name) =>
        match import_module module_name with
        | None => (self, inr (ImportError (msg_cannot_import module_name)))
        | Some module =>
          match class_name with
          | PStr cname =>
            match module cname with
            | None => (self, inr (ImportError (msg_no_class module_name cname)))
            | Some cls =>
              match from_dict cls (PDict attributes) with
              | inl obj => (mk_node (Msonable.attributes self) (Some obj), inl obj)
              | inr exc => (self, inr (FromDictRaised exc))
              end
            end
          | _ => (self, inr UncaughtError)
          end
        end
      | Some _ => (self, inr UncaughtError)
      end
    end
  end.

End GetObject.

(** The floats of a value are all finite: what the persistence layer's
    JSON storage accepts. *)
Fixpoint finite_floats (v : pyval) : bool :=
  match v with
  | PFloat (Finite _) => true
  | PFloat _ => false
  | PList l => forallb finite_floats l
  | PDict kvs => forallb (fun kv => finite_floats (snd kv)) kvs
  | _ => true
  end.

(** The keys of a dict have no duplicate. *)
Definition unique_keys (kvs : list (pystr * pyval)) : Prop := NoDup (map fst kvs).

End Msonable.

(** ** [verdi computer setup]: the default-mpiprocs-per-machine option *)
Module ComputerSetup.
Import PyStr.

Record resource := mk_resource {
  r_label : pystr;
  r_transport : pystr;
  r_scheduler : pystr;
  r_shebang : pystr;
  r_mpirun_command : pystr;
  r_default_mpiprocs_per_machine : option Z
}.

Record setup_options := mk_options {
  opt_label : pystr;
  opt_transport : pystr;
  opt_scheduler : pystr;
  opt_shebang : pystr;
  opt_mpirun_command : pystr;
  opt_mpiprocs_per_machine : option Z
}.

Section Setup.
(** The Resolver's registries and the template check of [mpirun-command]. *)
Variable transport_known : pystr -> bool.
Variable scheduler_known : pystr -> bool.
Variable mpirun_template_ok : pystr -> bool.

Definition msg_must_be_positive :=
  lit "Invalid value for default_mpiprocs_per_machine, must be positive".

(** Modelled from the spec: the [mpiprocs-per-machine] rule of
    [cmd_computer.computer_setup] (not in the sources): omitted or [0] is
    unspecified, a negative value is rejected with "must be positive", a
    positive value is kept. *)
Definition validate_mpiprocs (v : option Z) : option Z + pystr :=
  match v with
  | None => inl None
  | Some n =>
    if (n =? 0)%Z then inl None
    else if (n <? 0)%Z then inr msg_must_be_positive
    else inl (Some n)
  end.

(** Modelled from the spec: [verdi computer setup --non-interactive] with
    its checks in the spec's order; the exit code, the diagnostic printed,
    and the resources stored afterwards. *)
Definition computer_setup (o : setup_options) (store : list resource)
    : nat * pystr * list resource :=
  if existsb (fun r => str_eqb (r_label r) (opt_label o)) store then
    (1, lit "already exists", store)
  else if negb (transport_known (opt_transport o)) then
    (1, opt_transport o ++ lit "' is not valid", store)
  else if negb (scheduler_known (opt_scheduler o)) then
    (1, opt_scheduler o ++ lit "' is not valid", store)
  else if negb (startswith (opt_shebang o) (lit "#!")) then
    (1, lit "The shebang line should start with #!", store)
  else if negb (mpirun_template_ok (opt_mpirun_command o)) then
    (1, lit "unknown replacement field", store)
  else
    match validate_mpiprocs (opt_mpiprocs_per_machine o) with
    | inr msg => (1, msg, store)
    | inl mpi =>
      (0, [],
       store ++ [mk_resource (opt_label o) (opt_transport o) (opt_scheduler o)
                             (opt_shebang o) (opt_mpirun_command o) mpi])
    end.

End Setup.
End ComputerSetup.

(** ** Helpers of [backends/tests/cmdline/commands/test_computer.py] *)
Module TestComputer.
Import PyStr.

(** An [OrderedDict] of option values, [None] standing for Python's [None]. *)
Definition odict := list (pystr * option pystr).

(** [d[k] = v] on an [OrderedDict]: an existing key keeps its place, a new
    key goes last. *)
Fixpoint od_set (d : odict) (k : pystr) (v : option pystr) : odict :=
  match d with
  | [] => [(k, v)]
  | (k', v') :: rest =>
    if str_eqb k' k then (k', v) :: rest else (k', v') :: od_set rest k v
  end.

Definition od_get (d : odict) (k : pystr) : option (option pystr) :=
  option_map snd (find (fun kv => str_eqb (fst kv) k) d).

Definition newline : string := String (ascii_of_nat 10) EmptyString.

(** The options [generate_setup_options_dict] sets after [non-interactive]. *)
Definition valid_noninteractive_defaults : odict :=
  [ (lit "label", Some (lit "noninteractive_computer"));
    (lit "hostname", Some (lit "localhost"));
    (lit "description", Some (lit "my description"));
    (lit "transport", Some (lit "local"));
    (lit "scheduler", Some (lit "direct"));
    (lit "shebang", Some (lit "#!/bin/bash"));
    (lit "work-dir", Some (lit "/scratch/{username}/aiida_run"));
    (lit "mpirun-command", Some (lit "mpirun -np {tot_num_mpiprocs}"));
    (lit "mpiprocs-per-machine", Some (lit "2"));
    (lit "prepend-text", Some (lit ("date" ++ newline ++ "echo 'second line'")));
    (lit "append-text",
     Some (lit ("env" ++ newline ++ "echo '444'" ++ newline ++ "echo 'third line'"))) ].

Definition od_set_all (d : odict) (kvs : odict) : odict :=
  fold_left (fun d kv => od_set d (fst kv) (snd kv)) kvs d.

(** [generate_setup_options_dict(replace_args, non_interactive)], the dict
    [replace_args] given as the list of its items. *)
Definition generate_setup_options_dict (replace_args : odict) (non_interactive : bool)
    : odict :=
  let d := if non_interactive then [(lit "non-interactive", None)] else [] in
  let d := od_set_all d valid_noninteractive_defaults in
  od_set_all d replace_args.

(** [generate_setup_options(ordereddict)]. *)
Definition generate_setup_options (d : odict) : list pystr :=
  map (fun kv => match snd kv with
                 | None => lit "--" ++ fst kv
                 | Some v => lit "--" ++ fst kv ++ lit "=" ++ v
                 end) d.

End TestComputer.

(** * Properties *)

(** ** String operations *)
Module PyStrFacts.
Import PyStr.

Lemma startswith_app (p t : pystr) : startswith (p ++ t) p = true.
Proof.
  induction p as [|c p IH]; simpl; [reflexivity|].
  rewrite Ascii.eqb_refl, IH. reflexivity.
Qed.

Lemma startswith_true (s p : pystr) :
  startswith s p = true -> exists t, s = p ++ t.
Proof.
  revert s; induction p as [|c p IH]; intros s H.
  - exists s. reflexivity.
  - destruct s as [|d s]; simpl in H; [discriminate|].
    apply andb_prop in H as [Hc Hs].
    apply Ascii.eqb_eq in Hc; subst d.
    destruct (IH s Hs) as [t ->]. exists t. reflexivity.
Qed.

Lemma split_go_nonempty sep n skip s cur : split_go sep n skip s cur <> [].
Proof.
  revert n skip cur; induction s as [|c s IH]; intros n skip cur; simpl.
  - discriminate.
  - destruct skip; [|apply IH].
    destruct (_ && _); [discriminate|apply IH].
Qed.

(** A separator that ends the scanned text is always split off. *)
Lemma split_go_suffix sep u cur :
  sep <> [] -> 2 <= List.length (split_go sep None 0 (u ++ sep) cur).
Proof.
  intros Hsep; revert cur; induction u as [|c u IH]; intros cur.
  - destruct sep as [|d sep']; [congruence|].
    assert (Hs : startswith (d :: sep') (d :: sep') = true).
    { pose proof (startswith_app (d :: sep') []) as E.
      rewrite app_nil_r in E. exact E. }
    cbn [app split_go]. rewrite Hs. cbn [andb].
    pose proof (split_go_nonempty (d :: sep') None (pred (List.length (d :: sep')))
                  sep' []) as Hne.
    destruct (split_go _ _ _ sep' []); [congruence|]. simpl. lia.
  - cbn [app split_go].
    destruct (startswith (c :: u ++ sep) sep).
    + simpl.
      pose proof (split_go_nonempty sep None (pred (List.length sep)) (u ++ sep) [])
        as Hne.
      destruct (split_go _ _ _ (u ++ sep) []); [congruence|]. simpl. lia.
    + simpl. apply IH.
Qed.

(** Scanning text without a dot, splitting on ["."], only accumulates. *)
Lemma split_go_dot_free n u s cur :
  ~ In dot u ->
  split_go [dot] n 0 (u ++ s) cur = split_go [dot] n 0 s (rev u ++ cur).
Proof.
  revert cur; induction u as [|c u IH]; intros cur Hu; [reflexivity|].
  cbn [app split_go].
  assert (Hc : Ascii.eqb dot c = false).
  { apply Ascii.eqb_neq. intros E. apply Hu. left. symmetry. exact E. }
  cbn [startswith]. rewrite Hc, !andb_false_r. cbn [andb].
  rewrite IH by (intros H; apply Hu; right; exact H).
  simpl. rewrite <- app_assoc. reflexivity.
Qed.

Lemma split_go_end sep n cur : split_go sep n 0 [] cur = [rev cur].
Proof. reflexivity. Qed.

Lemma split_go_dot n s cur :
  n <> Some 0 ->
  split_go [dot] n 0 (dot :: s) cur = rev cur :: split_go [dot] (option_map pred n) 0 s [].
Proof.
  intros Hn. cbn [split_go startswith]. rewrite Ascii.eqb_refl. cbn [andb List.length pred].
  destruct n as [[|k]|]; [congruence|reflexivity|reflexivity].
Qed.

Lemma split_go_exhausted sep s cur :
  split_go sep (Some 0) 0 s cur = [rev cur ++ s].
Proof.
  revert cur; induction s as [|c s IH]; intros cur.
  - simpl. rewrite app_nil_r. reflexivity.
  - cbn [split_go]. simpl. rewrite IH. simpl. rewrite <- app_assoc. reflexivity.
Qed.

Lemma count_dot_app a b : count_dot (a ++ b) = count_dot a + count_dot b.
Proof. unfold count_dot. rewrite filter_app, length_app. reflexivity. Qed.

Lemma count_dot_rev a : count_dot (rev a) = count_dot a.
Proof.
  induction a as [|c a IH]; [reflexivity|].
  simpl. rewrite count_dot_app, IH. unfold count_dot; simpl.
  destruct (Ascii.eqb c dot); simpl; lia.
Qed.

Lemma count_dot_zero a : count_dot a = 0 -> ~ In dot a.
Proof.
  induction a as [|c a IH]; simpl; [tauto|].
  unfold count_dot; simpl. intros H [Hc|Hin].
  - subst c. rewrite Ascii.eqb_refl in H. discriminate.
  - destruct (Ascii.eqb c dot); [discriminate|]. exact (IH H Hin).
Qed.

Lemma not_in_count_dot a : ~ In dot a -> count_dot a = 0.
Proof.
  induction a as [|c a IH]; simpl; [reflexivity|].
  intros H. unfold count_dot; simpl.
  destruct (Ascii.eqb c dot) eqn:E.
  - apply Ascii.eqb_eq in E. subst. exfalso. apply H. left. reflexivity.
  - apply IH. tauto.
Qed.

(** The first dot of a text that has one. *)
Lemma first_dot r :
  0 < count_dot r -> exists a b, r = a ++ dot :: b /\ ~ In dot a.
Proof.
  induction r as [|c r IH]; [unfold count_dot; simpl; lia|].
  intros H. destruct (Ascii.eqb c dot) eqn:E.
  - apply Ascii.eqb_eq in E. subst c. exists [], r. split; [reflexivity|simpl; tauto].
  - unfold count_dot in H; simpl in H; rewrite E in H.
    destruct (IH H) as (a & b & -> & Ha).
    exists (c :: a), b. split; [reflexivity|].
    simpl. intros [Hc|Hin]; [|exact (Ha Hin)].
    subst c. rewrite Ascii.eqb_refl in E. discriminate.
Qed.

Lemma endswith_dot_app s : endswith_dot (s ++ [dot]) = true.
Proof. unfold endswith_dot. rewrite rev_app_distr. reflexivity. Qed.

Lemma endswith_dot_true s :
  endswith_dot s = true -> exists s', s = s' ++ [dot].
Proof.
  unfold endswith_dot. intros H.
  destruct (rev s) as [|c r] eqn:E; [discriminate|].
  apply Ascii.eqb_eq in H. subst c.
  exists (rev r). rewrite <- (rev_involutive s), E. reflexivity.
Qed.

End PyStrFacts.

(** ** Plugin loader *)
Module LoaderFacts.
Import PyStr PyStrFacts Loader.

Lemma rsplit_dot_last t c :
  ~ In dot c -> rsplit (t ++ [dot] ++ c) [dot] (Some 1) = Some [t; c].
Proof.
  intros Hc. unfold rsplit. cbn [rev app].
  rewrite !rev_app_distr. cbn [rev app]. rewrite <- ?app_assoc. cbn [app].
  rewrite split_go_dot_free by (rewrite <- in_rev; exact Hc).
  rewrite app_nil_r, split_go_dot by discriminate.
  cbn [option_map pred]. rewrite split_go_exhausted.
  cbn. rewrite !rev_involutive. reflexivity.
Qed.

Lemma rsplit_dot_free s :
  ~ In dot s -> rsplit s [dot] (Some 1) = Some [s].
Proof.
  intros Hs. unfold rsplit. cbn [rev app].
  rewrite <- (app_nil_r (rev s)).
  rewrite split_go_dot_free by (rewrite <- in_rev; exact Hs).
  rewrite app_nil_r, split_go_end. cbn. rewrite !rev_involutive. reflexivity.
Qed.

Lemma rsplit_dot_two t c :
  ~ In dot c ->
  rsplit (t ++ [dot] ++ c ++ [dot]) [dot] (Some 2) = Some [t; c; []].
Proof.
  intros Hc. unfold rsplit. cbn [rev app].
  rewrite !rev_app_distr. cbn [rev app]. rewrite ?rev_app_distr. cbn [rev app].
  rewrite <- ?app_assoc. cbn [app].
  rewrite split_go_dot by discriminate. cbn [option_map pred rev].
  rewrite split_go_dot_free by (rewrite <- in_rev; exact Hc).
  rewrite app_nil_r, split_go_dot by discriminate.
  cbn [option_map pred]. rewrite split_go_exhausted.
  cbn. rewrite !rev_involutive. reflexivity.
Qed.

Lemma rsplit_prefix_pieces s p :
  startswith s p = true -> p <> [] ->
  exists pieces, rsplit s p None = Some pieces /\ 2 <= List.length pieces.
Proof.
  intros Hs Hp.
  destruct (startswith_true s p Hs) as [t ->].
  destruct p as [|d p']; [congruence|].
  unfold rsplit. eexists; split; [reflexivity|].
  rewrite length_rev, length_map, rev_app_distr.
  apply split_go_suffix.
  intros E. apply (f_equal (@List.length ascii)) in E.
  rewrite length_rev in E. discriminate.
Qed.

Lemma strip_prefix_ok s p :
  startswith s p = true -> p <> [] -> exists r, strip_prefix s p = Ok r.
Proof.
  intros Hs Hp. unfold strip_prefix. rewrite Hs.
  destruct (rsplit_prefix_pieces s p Hs Hp) as (pieces & -> & Hl).
  destruct pieces as [|a [|b l]]; simpl in Hl; try lia.
  exists b. reflexivity.
Qed.

Lemma table_prefixes_nonempty p g :
  In (p, g) type_string_to_entry_point_group_map -> p <> [].
Proof.
  simpl. intros H.
  repeat (destruct H as [H|H]; [inversion H; subst; discriminate|]).
  destruct H.
Qed.

Section Scan.
Variable plugin : Type.
Variable Data : plugin.
Variable load_entry_point : pystr -> pystr -> plugin + entry_point_error.

Lemma scan_prefixes_missing base table e :
  (forall p g, In (p, g) table -> p <> []) ->
  snd (scan_prefixes plugin load_entry_point base table) = Err e ->
  e = MissingPluginError.
Proof.
  induction table as [|[p g] rest IH]; simpl; intros Hne H.
  - congruence.
  - destruct (startswith base p) eqn:Hs.
    + destruct (strip_prefix_ok base p Hs (Hne p g (or_introl eq_refl)))
        as [r Hr].
      rewrite Hr in H. simpl in H.
      destruct (load_entry_point g r); congruence.
    + apply IH; [|exact H]. intros p' g' Hin. exact (Hne p' g' (or_intror Hin)).
Qed.

Lemma scan_prefixes_lookups base table :
  List.length (fst (scan_prefixes plugin load_entry_point base table)) <= 1.
Proof.
  induction table as [|[p g] rest IH]; simpl; [lia|].
  destruct (startswith base p); [|exact IH].
  destruct (strip_prefix base p); simpl; lia.
Qed.

End Scan.

(** C2 (code bug).  [strip_prefix] takes [string.rsplit(prefix)[1]], the
    piece between the last two occurrences of [prefix] counted from the
    right, and not the rest of the string after the leading one: on
    ["data.foo.data.bar"] with prefix ["data."] it returns ["foo."] where the
    anchored strip gives ["foo.data.bar"]; [load_plugin] then looks up the
    entry point ["foo."].  With the empty prefix it raises [ValueError]. *)
Theorem strip_prefix_recurring_prefix :
  strip_prefix (lit "data.foo.data.bar") (lit "data.") = Ok (lit "foo.") /\
  strip_prefix_spec (lit "data.foo.data.bar") (lit "data.") = lit "foo.data.bar" /\
  fst (load_plugin unit tt (fun _ _ => inr MissingEntryPointError)
         (lit "data.foo.data.bar.Baz")) = [(lit "aiida.data", lit "foo.")] /\
  strip_prefix (lit "abc") [] = Err ValueError.
Proof. vm_compute. repeat split. Qed.

(** C3.  For a type string whose base path starts with ["calculation.job."]
    (and so also with ["calculation."]), [load_plugin] performs exactly one
    registry lookup: in ["aiida.calculations"], for the base path stripped of
    ["calculation.job."], the first entry of the table; and no type string
    leads to more than one lookup. *)
Theorem load_plugin_first_prefix_wins :
  forall (plugin : Type) (Data : plugin)
         (load_entry_point : pystr -> pystr -> plugin + entry_point_error)
         (base_path class_name : pystr),
    ~ In dot class_name ->
    startswith base_path s_calc_job = true ->
    load_plugin plugin Data load_entry_point (base_path ++ [dot] ++ class_name) =
      match strip_prefix base_path s_calc_job with
      | Ok entry_point =>
        ([(s_calcs, entry_point)],
         match load_entry_point s_calcs entry_point with
         | inl p => Ok p
         | inr _ => Err MissingPluginError
         end)
      | Err e => ([], Err e)
      end
  /\ (forall plugin_type,
        List.length (fst (load_plugin plugin Data load_entry_point plugin_type)) <= 1).
Proof.
  intros plugin Data lep base cls Hcls Hbase. split.
  - destruct (startswith_true _ _ Hbase) as [t ->].
    unfold load_plugin.
    destruct (list_eq_dec ascii_dec _ _) as [E|_]; [discriminate E|].
    rewrite rsplit_dot_last by exact Hcls.
    assert (Hc : (count_dot (s_calc_job ++ t) =? 0) = false).
    { rewrite count_dot_app. reflexivity. }
    rewrite Hc. unfold type_string_to_entry_point_group_map; cbn [scan_prefixes].
    unfold s_calc_job, s_calcs. rewrite startswith_app. reflexivity.
  - intros pt. unfold load_plugin.
    destruct (list_eq_dec ascii_dec _ _); [simpl; lia|].
    destruct (rsplit pt [dot] (Some 1)) as [[|b [|c [|]]]|]; try (simpl; lia).
    apply scan_prefixes_lookups.
Qed.

(** C4.  [load_plugin] fails with [MissingPluginError] and no lookup on a
    type string without a dot; returns [Data] with no lookup on
    ["data.Data"]; fails with [MissingPluginError] and no lookup when no
    prefix of the table matches; and every failure it reports is the
    [MissingPluginError] (registry errors included). *)
Theorem load_plugin_errors :
  forall (plugin : Type) (Data : plugin)
         (load_entry_point : pystr -> pystr -> plugin + entry_point_error),
    (forall plugin_type, ~ In dot plugin_type ->
       load_plugin plugin Data load_entry_point plugin_type = ([], Err MissingPluginError))
    /\ load_plugin plugin Data load_entry_point (lit "data.Data") = ([], Ok Data)
    /\ (forall base_path,
          (forall p g, In (p, g) type_string_to_entry_point_group_map ->
                       startswith base_path p = false) ->
          scan_prefixes plugin load_entry_point base_path
                        type_string_to_entry_point_group_map = ([], Err MissingPluginError))
    /\ (forall plugin_type e,
          snd (load_plugin plugin Data load_entry_point plugin_type) = Err e ->
          e = MissingPluginError).
Proof.
  intros plugin Data lep. split; [|split; [|split]].
  - intros pt Hpt. unfold load_plugin.
    destruct (list_eq_dec ascii_dec _ _) as [E|_].
    + exfalso. apply Hpt. rewrite E. simpl. tauto.
    + rewrite rsplit_dot_free by exact Hpt. reflexivity.
  - reflexivity.
  - intros base H.
    unfold type_string_to_entry_point_group_map in *; cbn [scan_prefixes].
    rewrite !(H _ _) by (simpl; tauto). reflexivity.
  - intros pt e. unfold load_plugin.
    destruct (list_eq_dec ascii_dec _ _); [simpl; congruence|].
    destruct (rsplit pt [dot] (Some 1)) as [[|b [|c [|]]]|];
      try (simpl; congruence).
    apply scan_prefixes_missing. apply table_prefixes_nonempty.
Qed.

(** C5.  [get_query_type_from_type_string] maps [""] to [""]; raises
    [DbContentError] on every non-empty string that does not end with a dot
    or has fewer than two dots; and on every other string, which is some
    [t ++ "." ++ c ++ "."] with no dot in the class segment [c], returns
    [t ++ "."]. *)
Theorem get_query_type_from_type_string_spec :
  get_query_type_from_type_string [] = Ok []
  /\ (forall s, s <> [] -> (endswith_dot s = false \/ count_dot s < 2) ->
        get_query_type_from_type_string s = Err (DbContentError s))
  /\ (forall s, endswith_dot s = true -> 2 <= count_dot s ->
        exists t c, s = t ++ [dot] ++ c ++ [dot] /\ ~ In dot c /\
                    get_query_type_from_type_string s = Ok (t ++ [dot])).
Proof.
  split; [reflexivity|split].
  - intros s Hs Hbad. unfold get_query_type_from_type_string.
    destruct s as [|x s']; [congruence|].
    destruct (endswith_dot (x :: s')) eqn:He.
    + destruct Hbad as [Hbad|Hbad]; [congruence|].
      destruct (endswith_dot_true _ He) as [s0 E]. rewrite E in Hbad |- *.
      rewrite count_dot_app in Hbad. unfold count_dot at 2 in Hbad. simpl in Hbad.
      assert (Hz : count_dot s0 = 0) by lia.
      rewrite count_dot_app, Hz. reflexivity.
    + reflexivity.
  - intros s He Hc.
    destruct (endswith_dot_true _ He) as [s0 ->].
    rewrite count_dot_app in Hc. unfold count_dot at 2 in Hc. simpl in Hc.
    rewrite <- count_dot_rev in Hc.
    destruct (first_dot (rev s0)) as (a & b & Ea & Ha); [lia|].
    exists (rev b), (rev a).
    assert (Es0 : s0 = rev b ++ [dot] ++ rev a).
    { rewrite <- (rev_involutive s0), Ea, rev_app_distr. simpl.
      rewrite <- app_assoc. reflexivity. }
    assert (Hra : ~ In dot (rev a)) by (rewrite <- in_rev; exact Ha).
    split; [rewrite Es0, <- !app_assoc; reflexivity|split; [exact Hra|]].
    rewrite Es0, <- !app_assoc.
    unfold get_query_type_from_type_string.
    destruct (rev b ++ [dot] ++ rev a ++ [dot]) as [|x y] eqn:Ex.
    { destruct (rev b); discriminate. }
    rewrite <- Ex.
    replace (rev b ++ [dot] ++ rev a ++ [dot])
      with ((rev b ++ [dot] ++ rev a) ++ [dot]) by (rewrite <- !app_assoc; reflexivity).
    rewrite endswith_dot_app.
    cbn [negb orb].
    destruct (count_dot _ =? 1) eqn:E1.
    + exfalso. apply Nat.eqb_eq in E1.
      rewrite !count_dot_app, (not_in_count_dot _ Hra) in E1.
      unfold count_dot at 2 3 in E1. simpl in E1. lia.
    + rewrite <- !app_assoc. rewrite rsplit_dot_two by exact Hra. reflexivity.
Qed.

(** C6.  [get_plugin_type_from_type_string] maps [""] to ["node.Node"] (the
    plugin type of ["node.Node."]); raises [DbContentError] on every
    non-empty string not ending with a dot; and on every string ending with
    a dot returns it without that last dot. *)
Theorem get_plugin_type_from_type_string_spec :
  get_plugin_type_from_type_string [] = Ok (lit "node.Node")
  /\ (forall s, s <> [] -> endswith_dot s = false ->
        get_plugin_type_from_type_string s = Err (DbContentError s))
  /\ (forall s, endswith_dot s = true ->
        exists s', s = s' ++ [dot] /\ get_plugin_type_from_type_string s = Ok s').
Proof.
  split; [reflexivity|split].
  - intros s Hs He. unfold get_plugin_type_from_type_string.
    destruct s as [|x s']; [congruence|]. rewrite He. reflexivity.
  - intros s He. destruct (endswith_dot_true _ He) as [s' ->].
    exists s'. split; [reflexivity|].
    unfold get_plugin_type_from_type_string.
    destruct (s' ++ [dot]) as [|x y] eqn:E; [destruct s'; discriminate|].
    rewrite <- E, endswith_dot_app. simpl. unfold drop_last.
    rewrite length_app. simpl. rewrite Nat.add_sub, firstn_app, Nat.sub_diag.
    rewrite firstn_all. simpl. rewrite app_nil_r. reflexivity.
Qed.

Lemma load_plugin_first_prefix_wins_witness :
  let lep := fun (_ e : pystr) =>
    if list_eq_dec ascii_dec e (lit "foo") then inl 1 else inr MissingEntryPointError in
  load_plugin nat 0 lep (lit "calculation.job.foo" ++ [dot] ++ lit "Bar") =
    ([(s_calcs, lit "foo")], Ok 1).
Proof.
  intros lep.
  assert (Hc : ~ In dot (lit "Bar")) by (simpl; intuition discriminate).
  rewrite (proj1 (load_plugin_first_prefix_wins nat 0 lep (lit "calculation.job.foo")
                    (lit "Bar") Hc eq_refl)).
  vm_compute. reflexivity.
Defined.

Lemma load_plugin_errors_witness :
  let lep := fun (_ _ : pystr) => @inr nat _ MultipleEntryPointError in
  load_plugin nat 0 lep (lit "Bar") = ([], Err MissingPluginError) /\
  (forall e, snd (load_plugin nat 0 lep (lit "data.foo.Bar")) = Err e ->
             e = MissingPluginError).
Proof.
  intros lep. split.
  - apply (proj1 (load_plugin_errors nat 0 lep)). simpl. intuition discriminate.
  - intros e. apply (proj2 (proj2 (proj2 (load_plugin_errors nat 0 lep)))).
Defined.

Lemma get_query_type_from_type_string_spec_witness :
  get_query_type_from_type_string (lit "data.foo") =
    Err (DbContentError (lit "data.foo")) /\
  exists t c, lit "data.foo.Bar." = t ++ [dot] ++ c ++ [dot] /\ ~ In dot c /\
    get_query_type_from_type_string (lit "data.foo.Bar.") = Ok (t ++ [dot]).
Proof.
  split.
  - apply (proj1 (proj2 get_query_type_from_type_string_spec)).
    + discriminate.
    + left. reflexivity.
  - apply (proj2 (proj2 get_query_type_from_type_string_spec)).
    + reflexivity.
    + vm_compute. lia.
Defined.

Lemma get_plugin_type_from_type_string_spec_witness :
  get_plugin_type_from_type_string (lit "node.Node") =
    Err (DbContentError (lit "node.Node")) /\
  exists s', lit "data.Bar." = s' ++ [dot] /\
    get_plugin_type_from_type_string (lit "data.Bar.") = Ok s'.
Proof.
  split.
  - apply (proj1 (proj2 get_plugin_type_from_type_string_spec)).
    + discriminate.
    + reflexivity.
  - apply (proj2 (proj2 get_plugin_type_from_type_string_spec)). reflexivity.
Defined.

End LoaderFacts.

(** ** Plugin loader: type strings, class paths and plugin types *)
Module LoaderExtraFacts.
Import PyStr PyStrFacts Loader LoaderFacts.

Lemma contains_unfold s q :
  contains s q = startswith s q || match s with [] => false | _ :: s' => contains s' q end.
Proof. destruct s; reflexivity. Qed.

Lemma contains_app a q b : contains (a ++ q ++ b) q = true.
Proof.
  induction a as [|c a IH].
  - cbn [app]. rewrite contains_unfold, startswith_app. reflexivity.
  - cbn [app contains]. rewrite IH, orb_true_r. reflexivity.
Qed.

Lemma contains_sound s q :
  contains s q = true -> exists a b, s = a ++ q ++ b.
Proof.
  induction s as [|c s IH]; rewrite contains_unfold; intros H.
  - rewrite orb_false_r in H. destruct (startswith_true _ _ H) as [t E].
    destruct q; [|discriminate]. exists [], []. reflexivity.
  - apply orb_true_iff in H as [H|H].
    + destruct (startswith_true _ _ H) as [t E]. exists [], t. exact E.
    + destruct (IH H) as (a & b & ->). exists (c :: a), b. reflexivity.
Qed.

Lemma startswith_app_l p t q : startswith (p ++ t) (p ++ q) = startswith t q.
Proof.
  induction p as [|c p IH]; [reflexivity|].
  cbn [app startswith]. rewrite Ascii.eqb_refl, IH. reflexivity.
Qed.

Lemma startswith_dot_free t q :
  ~ In dot t -> In dot q -> startswith t q = false.
Proof.
  intros Ht Hq. destruct (startswith t q) eqn:E; [|reflexivity].
  destruct (startswith_true _ _ E) as [u ->].
  exfalso. apply Ht. apply in_or_app. left. exact Hq.
Qed.

Lemma startswith_self p : startswith p p = true.
Proof. rewrite <- (app_nil_r p) at 1. apply startswith_app. Qed.

Lemma rsplit_nonempty s sep n :
  sep <> [] ->
  rsplit s sep n = Some (rev (map (@rev ascii) (split_go (rev sep) n 0 (rev s) []))).
Proof. destruct sep; [congruence|reflexivity]. Qed.

(** Once the separator is being skipped to the end of the text, the scan
    emits the current piece only. *)
Lemma split_go_skip sep n k s cur :
  List.length s <= k -> split_go sep n k s cur = [rev cur].
Proof.
  revert k; induction s as [|c s IH]; intros k Hk; [reflexivity|].
  destruct k as [|k]; [simpl in Hk; lia|].
  cbn [split_go]. apply IH. simpl in Hk. lia.
Qed.

(** A separator that occurs only at the very end of the scanned text splits
    it into the text before it and the empty piece. *)
Lemma split_go_unique sep u cur :
  sep <> [] ->
  (forall a b, u ++ sep = a ++ sep ++ b -> b = []) ->
  split_go sep None 0 (u ++ sep) cur = [rev cur ++ u; []].
Proof.
  intros Hsep. revert cur; induction u as [|c u IH]; intros cur Hu.
  - destruct sep as [|d sep']; [congruence|].
    cbn [app split_go]. rewrite startswith_self. cbn [andb option_map].
    rewrite split_go_skip by (simpl; lia).
    rewrite app_nil_r. reflexivity.
  - cbn [app split_go].
    assert (Hs : startswith (c :: u ++ sep) sep = false).
    { destruct (startswith (c :: u ++ sep) sep) eqn:E; [|reflexivity].
      destruct (startswith_true _ _ E) as [t Et].
      assert (t = []) as ->.
      { apply (Hu [] t). exact Et. }
      apply (f_equal (@List.length ascii)) in Et.
      rewrite app_nil_r in Et. simpl in Et. rewrite length_app in Et. lia. }
    rewrite Hs. cbn [andb].
    rewrite IH.
    + simpl. rewrite <- app_assoc. reflexivity.
    + intros a b E. apply (Hu (c :: a) b). simpl. rewrite E. reflexivity.
Qed.

(** [strip_prefix] removes a prefix that does not occur again later in the
    string, and keeps the rest verbatim. *)
Lemma strip_prefix_unique p r :
  p <> [] -> contains (tl (p ++ r)) p = false -> strip_prefix (p ++ r) p = Ok r.
Proof.
  intros Hp Hc. unfold strip_prefix. rewrite startswith_app.
  rewrite rsplit_nonempty by exact Hp.
  rewrite rev_app_distr, split_go_unique.
  - simpl. rewrite rev_involutive. reflexivity.
  - intros E. apply (f_equal (@List.length ascii)) in E.
    rewrite length_rev in E. destruct p; [congruence|discriminate].
  - intros a b E. apply (f_equal (@rev ascii)) in E.
    rewrite !rev_app_distr, !rev_involutive in E.
    destruct (rev b) as [|x l] eqn:Eb.
    + rewrite <- (rev_involutive b), Eb. reflexivity.
    + exfalso. rewrite E in Hc. cbn [app tl] in Hc.
      rewrite <- app_assoc, contains_app in Hc. discriminate.
Qed.

Lemma length_tl (l : pystr) : List.length (tl l) = pred (List.length l).
Proof. destruct l; reflexivity. Qed.

(** A prefix ending with a dot, followed by a text without a dot, is
    stripped exactly. *)
Lemma strip_prefix_dot q r :
  ~ In dot r -> strip_prefix ((q ++ [dot]) ++ r) (q ++ [dot]) = Ok r.
Proof.
  intros Hr. apply strip_prefix_unique.
  - destruct q; discriminate.
  - destruct (contains _ _) eqn:E; [|reflexivity]. exfalso.
    destruct (contains_sound _ _ E) as (a & b & Eab).
    assert (Htl : tl ((q ++ [dot]) ++ r) = tl (q ++ [dot]) ++ r)
      by (destruct q; reflexivity).
    rewrite Htl in Eab.
    apply (f_equal (skipn (List.length q))) in Eab.
    assert (Hlq : List.length (tl (q ++ [dot])) = List.length q)
      by (rewrite length_tl, length_app; simpl; lia).
    rewrite skipn_app, <- Hlq, skipn_all, Nat.sub_diag in Eab. cbn [skipn app] in Eab.
    replace (a ++ (q ++ [dot]) ++ b) with ((a ++ q) ++ dot :: b) in Eab
      by (rewrite <- !app_assoc; reflexivity).
    rewrite skipn_app, Hlq in Eab.
    replace (List.length q - List.length (a ++ q)) with 0 in Eab
      by (rewrite length_app; lia).
    cbn [skipn] in Eab. apply Hr. rewrite Eab.
    apply in_or_app. right. left. reflexivity.
Qed.

Lemma drop_last_dot s : drop_last (s ++ [dot]) = s.
Proof.
  unfold drop_last. rewrite length_app. simpl.
  rewrite Nat.add_sub, firstn_app, Nat.sub_diag, firstn_all. simpl.
  apply app_nil_r.
Qed.

Lemma get_plugin_type_dot s : get_plugin_type_from_type_string (s ++ [dot]) = Ok s.
Proof.
  unfold get_plugin_type_from_type_string.
  destruct (s ++ [dot]) as [|x y] eqn:E; [destruct s; discriminate|].
  rewrite <- E, endswith_dot_app. cbn [negb]. rewrite drop_last_dot. reflexivity.
Qed.

Section Scan.
Variable plugin : Type.
Variable Data : plugin.
Variable load_entry_point : pystr -> pystr -> plugin + entry_point_error.

Lemma scan_prefixes_skip base p g rest :
  startswith base p = false ->
  scan_prefixes plugin load_entry_point base ((p, g) :: rest) =
  scan_prefixes plugin load_entry_point base rest.
Proof. intros H. cbn [scan_prefixes]. rewrite H. reflexivity. Qed.

Lemma scan_prefixes_hit base p g rest r :
  startswith base p = true -> strip_prefix base p = Ok r ->
  scan_prefixes plugin load_entry_point base ((p, g) :: rest) =
  ([(g, r)], match load_entry_point g r with
             | inl x => Ok x
             | inr _ => Err MissingPluginError
             end).
Proof. intros H1 H2. cbn [scan_prefixes]. rewrite H1, H2. reflexivity. Qed.

(** The plugin type [prefix ++ name ++ "." ++ cls] of a table prefix, with
    no dot in [name] and [cls], is looked up as [name] in the prefix's
    group. *)
Lemma load_plugin_table_entry prefix group name cls :
  In (prefix, group) type_string_to_entry_point_group_map ->
  ~ In dot name -> ~ In dot cls ->
  load_plugin plugin Data load_entry_point (prefix ++ name ++ [dot] ++ cls) =
  ([(group, name)], match load_entry_point group name with
                    | inl x => Ok x
                    | inr _ => Err MissingPluginError
                    end).
Proof.
  intros Hin Hn Hc.
  assert (Hp : prefix = drop_last prefix ++ [dot] /\ 0 < count_dot prefix).
  { simpl in Hin.
    repeat (destruct Hin as [Hin|Hin];
            [injection Hin as <- <-; split; [reflexivity|vm_compute; lia]|]).
    destruct Hin. }
  destruct Hp as (Eq & Hcnt).
  unfold load_plugin.
  destruct (list_eq_dec ascii_dec _ _) as [E|_].
  { exfalso. apply (f_equal count_dot) in E.
    rewrite !count_dot_app, (not_in_count_dot _ Hn), (not_in_count_dot _ Hc) in E.
    change (count_dot (lit "data.Data")) with 1 in E.
    change (count_dot [dot]) with 1 in E. lia. }
  rewrite app_assoc, rsplit_dot_last by exact Hc.
  replace (count_dot (prefix ++ name) =? 0) with false
    by (symmetry; apply Nat.eqb_neq; rewrite count_dot_app; lia).
  cbv beta iota zeta.
  assert (Hstrip : strip_prefix (prefix ++ name) prefix = Ok name)
    by (rewrite Eq; apply strip_prefix_dot; exact Hn).
  clear Eq Hcnt.
  unfold type_string_to_entry_point_group_map.
  simpl in Hin.
  repeat (destruct Hin as [Hin|Hin];
          [injection Hin as <- <-;
           repeat first
             [ rewrite scan_prefixes_hit with (r := name) by
                 first [apply startswith_app | exact Hstrip]; reflexivity
             | rewrite scan_prefixes_skip by
                 first [ reflexivity
                       | change (lit "calculation.job.") with
                           (lit "calculation." ++ lit "job.");
                         rewrite startswith_app_l;
                         apply startswith_dot_free; [exact Hn|simpl; tauto] ] ]
          |]).
  destruct Hin.
Qed.

End Scan.

(** [get_type_string_from_class_path] on an [aiida.orm.] class path whose
    prefix does not recur and whose rest starts with no [implementation.*]
    prefix: the rest, with ["node.Node."] collapsed to [""]. *)
Lemma class_path_orm rest :
  contains (tl (lit "aiida.orm." ++ rest)) (lit "aiida.orm.") = false ->
  (forall p, In p (tl class_path_prefixes) -> startswith rest p = false) ->
  get_type_string_from_class_path (lit "aiida.orm." ++ rest) =
    Ok (if str_eqb rest (lit "node.Node.") then [] else rest).
Proof.
  intros Hc Hp. unfold get_type_string_from_class_path, class_path_prefixes.
  cbn [strip_prefixes].
  rewrite strip_prefix_unique by (discriminate || exact Hc).
  unfold strip_prefix.
  rewrite !Hp by (simpl; tauto).
  reflexivity.
Qed.

(** [strip_prefix(string, prefix)] on a string that starts with [prefix]
    and has no later occurrence of it returns the rest of the string after
    the leading [prefix], unchanged. *)
Theorem strip_prefix_single_occurrence (p r : pystr) :
  p <> [] -> contains (tl (p ++ r)) p = false -> strip_prefix (p ++ r) p = Ok r.
Proof. apply strip_prefix_unique. Qed.

(** Type strings of the loader's table round-trip: for every [prefix] of
    [type_string_to_entry_point_group_map], the type string
    [prefix ++ name ++ "." ++ cls ++ "."] (no dot in [name] or [cls]) has
    plugin type [prefix ++ name ++ "." ++ cls], and [load_plugin] on it
    performs the single lookup of [name] in the prefix's group. *)
Theorem type_string_load_plugin (plugin : Type) (Data : plugin)
    (load_entry_point : pystr -> pystr -> plugin + entry_point_error)
    (prefix group name cls : pystr) :
  In (prefix, group) type_string_to_entry_point_group_map ->
  ~ In dot name -> ~ In dot cls ->
  get_plugin_type_from_type_string (prefix ++ name ++ [dot] ++ cls ++ [dot]) =
    Ok (prefix ++ name ++ [dot] ++ cls) /\
  load_plugin plugin Data load_entry_point (prefix ++ name ++ [dot] ++ cls) =
    ([(group, name)], match load_entry_point group name with
                      | inl x => Ok x
                      | inr _ => Err MissingPluginError
                      end).
Proof.
  intros Hin Hn Hc. split.
  - replace (prefix ++ name ++ [dot] ++ cls ++ [dot])
      with ((prefix ++ name ++ [dot] ++ cls) ++ [dot])
      by (rewrite <- !app_assoc; reflexivity).
    apply get_plugin_type_dot.
  - apply load_plugin_table_entry; assumption.
Qed.

(** A one-segment base path [c] is read as [c.c]: for the categories
    [calculation], [code], [data] and [node] (the table prefixes [c.]),
    [load_plugin (c ++ "." ++ cls)] (no dot in [cls], other than
    ["data.Data"]) looks up the entry point [c] in the category's group. *)
Theorem load_plugin_single_segment (plugin : Type) (Data : plugin)
    (load_entry_point : pystr -> pystr -> plugin + entry_point_error)
    (c group cls : pystr) :
  In (c ++ [dot], group) type_string_to_entry_point_group_map ->
  ~ In dot c -> ~ In dot cls -> c ++ [dot] ++ cls <> lit "data.Data" ->
  load_plugin plugin Data load_entry_point (c ++ [dot] ++ cls) =
    ([(group, c)], match load_entry_point group c with
                   | inl x => Ok x
                   | inr _ => Err MissingPluginError
                   end).
Proof.
  intros Hin Hc Hcls Hdd.
  assert (Ec : c = drop_last (c ++ [dot])) by (symmetry; apply drop_last_dot).
  simpl in Hin.
  repeat (destruct Hin as [Hin|Hin];
          [injection Hin as Hin <-; rewrite <- Hin in Ec; vm_compute in Ec; subst c;
           first
             [ exfalso; apply not_in_count_dot in Hc; vm_compute in Hc; discriminate
             | unfold load_plugin;
               destruct (list_eq_dec ascii_dec _ _) as [E|_]; [congruence|];
               rewrite rsplit_dot_last by exact Hcls;
               vm_compute; reflexivity ]|]).
  destruct Hin.
Qed.

(** [get_type_string_from_class_path]: a class path starting with none of
    [aiida.orm.] and the [implementation.*] prefixes is returned unchanged
    (["node.Node."] becoming [""]); an [aiida.orm.] path, with that prefix
    only at its start and no [implementation.*] prefix after it, loses the
    [aiida.orm.] prefix (["aiida.orm.node.Node."] becoming [""]). *)
Theorem get_type_string_from_class_path_strip :
  (forall class_path,
     (forall p, In p class_path_prefixes -> startswith class_path p = false) ->
     get_type_string_from_class_path class_path =
       Ok (if str_eqb class_path (lit "node.Node.") then [] else class_path)) /\
  (forall rest,
     contains (tl (lit "aiida.orm." ++ rest)) (lit "aiida.orm.") = false ->
     (forall p, In p (tl class_path_prefixes) -> startswith rest p = false) ->
     get_type_string_from_class_path (lit "aiida.orm." ++ rest) =
       Ok (if str_eqb rest (lit "node.Node.") then [] else rest)).
Proof.
  split.
  - intros cp Hp. unfold get_type_string_from_class_path, class_path_prefixes.
    cbn [strip_prefixes]. unfold strip_prefix.
    rewrite !Hp by (simpl; tauto). reflexivity.
  - apply class_path_orm.
Qed.

(** An external class registered as entry point [name] of group [g], whose
    module path is [aiida.orm. ++ q] with [q.] a prefix of the loader's
    table: [get_type_string_from_class] gives [q.name.cls.], and its plugin
    type loads through a single lookup of [name] in [g]: the type string
    leads back to the entry point. *)
Theorem registered_class_type_string_loads
    (get_entry_point_from_class : pystr -> pystr -> option (pystr * pystr))
    (entry_point_group_to_module_path_map : pystr -> option pystr)
    (plugin : Type) (Data : plugin)
    (load_entry_point : pystr -> pystr -> plugin + entry_point_error)
    (class_module class_name g name q : pystr) :
  get_entry_point_from_class class_module class_name = Some (g, name) ->
  g <> [] ->
  entry_point_group_to_module_path_map g = Some (lit "aiida.orm." ++ q) ->
  In (q ++ [dot], g) type_string_to_entry_point_group_map ->
  ~ In dot name -> ~ In dot class_name ->
  contains (tl (lit "aiida.orm." ++ q ++ [dot] ++ name ++ [dot] ++ class_name ++ [dot]))
           (lit "aiida.orm.") = false ->
  get_type_string_from_class get_entry_point_from_class
      entry_point_group_to_module_path_map class_module class_name =
    TypeString (q ++ [dot] ++ name ++ [dot] ++ class_name ++ [dot]) /\
  get_plugin_type_from_type_string (q ++ [dot] ++ name ++ [dot] ++ class_name ++ [dot]) =
    Ok (q ++ [dot] ++ name ++ [dot] ++ class_name) /\
  load_plugin plugin Data load_entry_point (q ++ [dot] ++ name ++ [dot] ++ class_name) =
    ([(g, name)], match load_entry_point g name with
                  | inl x => Ok x
                  | inr _ => Err MissingPluginError
                  end).
Proof.
  intros Hep Hg Hmap Hin Hn Hc Hcont. split; [|split].
  - unfold get_type_string_from_class. rewrite Hep.
    destruct g as [|x g']; [congruence|]. rewrite Hmap.
    rewrite <- !app_assoc, class_path_orm.
    + destruct (str_eqb _ _) eqn:E; [|reflexivity].
      exfalso. unfold str_eqb in E.
      destruct (list_eq_dec _ _ _) as [E'|]; [|discriminate].
      apply (f_equal count_dot) in E'.
      rewrite !count_dot_app, (not_in_count_dot _ Hn), (not_in_count_dot _ Hc) in E'.
      change (count_dot [dot]) with 1 in E'.
      change (count_dot (lit "node.Node.")) with 2 in E'. lia.
    + exact Hcont.
    + intros p Hp. rewrite app_assoc.
      simpl in Hin.
      repeat (destruct Hin as [Hin|Hin];
              [injection Hin as Hin _; rewrite <- Hin;
               simpl in Hp; repeat (destruct Hp as [<-|Hp]; [reflexivity|]); destruct Hp|]).
      destruct Hin.
  - replace (q ++ [dot] ++ name ++ [dot] ++ class_name ++ [dot])
      with ((q ++ [dot] ++ name ++ [dot] ++ class_name) ++ [dot])
      by (rewrite <- !app_assoc; reflexivity).
    apply get_plugin_type_dot.
  - rewrite app_assoc. apply load_plugin_table_entry; assumption.
Qed.

Lemma strip_prefix_single_occurrence_witness :
  strip_prefix (lit "data." ++ lit "array.ArrayData") (lit "data.") =
    Ok (lit "array.ArrayData").
Proof. apply strip_prefix_single_occurrence; [discriminate|reflexivity]. Defined.

Lemma type_string_load_plugin_witness :
  let lep := fun (g e : pystr) =>
    if list_eq_dec ascii_dec e (lit "array") then inl 1 else inr MissingEntryPointError in
  get_plugin_type_from_type_string (lit "data." ++ lit "array" ++ [dot] ++ lit "ArrayData" ++ [dot]) =
    Ok (lit "data." ++ lit "array" ++ [dot] ++ lit "ArrayData") /\
  load_plugin nat 0 lep (lit "data." ++ lit "array" ++ [dot] ++ lit "ArrayData") =
    ([(lit "aiida.data", lit "array")], Ok 1).
Proof.
  intros lep.
  destruct (type_string_load_plugin nat 0 lep (lit "data.") (lit "aiida.data")
              (lit "array") (lit "ArrayData")) as [H1 H2].
  - simpl. tauto.
  - simpl. intuition discriminate.
  - simpl. intuition discriminate.
  - split; [exact H1|]. rewrite H2. reflexivity.
Defined.

Lemma load_plugin_single_segment_witness :
  let lep := fun (g e : pystr) => @inl nat entry_point_error 7 in
  load_plugin nat 0 lep (lit "code" ++ [dot] ++ lit "Code") =
    ([(lit "aiida.code", lit "code")], Ok 7).
Proof.
  intros lep.
  apply (load_plugin_single_segment nat 0 lep (lit "code") (lit "aiida.code") (lit "Code")).
  - simpl. tauto.
  - simpl. intuition discriminate.
  - simpl. intuition discriminate.
  - discriminate.
Defined.

Lemma get_type_string_from_class_path_strip_witness :
  get_type_string_from_class_path (lit "node.Node.") = Ok [] /\
  get_type_string_from_class_path (lit "aiida.orm." ++ lit "data.array.ArrayData.") =
    Ok (lit "data.array.ArrayData.").
Proof.
  split.
  - apply (proj1 get_type_string_from_class_path_strip).
    intros p Hp. simpl in Hp.
    repeat (destruct Hp as [<-|Hp]; [reflexivity|]). destruct Hp.
  - apply (proj2 get_type_string_from_class_path_strip).
    + vm_compute. reflexivity.
    + intros p Hp. simpl in Hp.
      repeat (destruct Hp as [<-|Hp]; [reflexivity|]). destruct Hp.
Defined.

Lemma registered_class_type_string_loads_witness :
  let gepc := fun (_ _ : pystr) => Some (lit "aiida.calculations", lit "arithmetic") in
  let mp := fun (_ : pystr) => Some (lit "aiida.orm." ++ lit "calculation.job") in
  let lep := fun (_ _ : pystr) => @inl nat entry_point_error 3 in
  get_type_string_from_class gepc mp (lit "aiida_plugin.calc") (lit "AddCalc") =
    TypeString (lit "calculation.job" ++ [dot] ++ lit "arithmetic" ++ [dot]
                ++ lit "AddCalc" ++ [dot]) /\
  load_plugin nat 0 lep (lit "calculation.job" ++ [dot] ++ lit "arithmetic" ++ [dot]
                         ++ lit "AddCalc") =
    ([(lit "aiida.calculations", lit "arithmetic")], Ok 3).
Proof.
  intros gepc mp lep.
  destruct (registered_class_type_string_loads gepc mp nat 0 lep (lit "aiida_plugin.calc")
              (lit "AddCalc") (lit "aiida.calculations") (lit "arithmetic")
              (lit "calculation.job")) as (H1 & _ & H3).
  - reflexivity.
  - discriminate.
  - reflexivity.
  - simpl. tauto.
  - simpl. intuition discriminate.
  - simpl. intuition discriminate.
  - vm_compute. reflexivity.
  - split; [exact H1|]. rewrite H3. reflexivity.
Defined.

End LoaderExtraFacts.

(** ** MSONable data and its JSON codec *)
Module MsonableFacts.
Import PyStr PyStrFacts Msonable.

Section WithOps.
Context `{PyObjOps}.

Lemma pre_process_additional_builtin v :
  classof v = builtin_class -> pre_process_additional v = v.
Proof.
  intros Hc. unfold pre_process_additional.
  repeat (rewrite Hc; cbn [isa_datetime isa_uuid isa_ndarray isa_generic
                           isa_objectid is_callable isa_msonable builtin_class]).
  rewrite andb_false_r. rewrite Hc. reflexivity.
Qed.

Lemma post_pre_leaf v :
  json_safe v = true -> no_sentinel_string v = true ->
  match v with PList _ | PDict _ => False | _ => True end ->
  post_process (pre_process v) = v.
Proof.
  intros Hj Hn Hleaf.
  destruct v as [| | |f|s| | |]; try contradiction; try discriminate;
    cbn [pre_process]; rewrite pre_process_additional_builtin by reflexivity.
  - reflexivity.
  - reflexivity.
  - reflexivity.
  - destruct f; reflexivity.
  - simpl in Hn. unfold sentinel in Hn.
    cbn [pre_process_nan post_process post_process_nan post_process_additional].
    destruct (str_eqb s s_Infinity), (str_eqb s s_mInfinity), (str_eqb s s_NaN);
      try discriminate; reflexivity.
Qed.

End WithOps.

(** C1 (counterexample).  A serialized mapping whose leaf is the genuine
    string ["NaN"] does not survive encode then decode: it comes back as the
    float [nan]. *)
Lemma roundtrip_sentinel_string_counterexample :
  let ops := mk_ops (fun _ => inr (lit "NotImplementedError")) in
  let m := PDict [(lit "label", PStr s_NaN)] in
  post_process (@pre_process ops m) = PDict [(lit "label", PFloat NaN)] /\
  post_process (@pre_process ops m) <> m.
Proof. vm_compute. split; [reflexivity|discriminate]. Qed.

(** C1 (as amended).  The sentinel stage maps [inf], [-inf], [nan] to
    ["Infinity"], ["-Infinity"], ["NaN"] and the decode stage maps them back;
    and for every JSON-safe mapping (floats possibly [inf], [-inf], [nan])
    none of whose string leaves is one of those three strings, decode after
    encode gives the mapping back (all NaNs counted as the one value [nan]). *)
Theorem codec_roundtrip `{PyObjOps} :
  pre_process_nan (PFloat PosInf) = PStr s_Infinity /\
  pre_process_nan (PFloat NegInf) = PStr s_mInfinity /\
  pre_process_nan (PFloat NaN) = PStr s_NaN /\
  post_process_nan (PStr s_Infinity) = PFloat PosInf /\
  post_process_nan (PStr s_mInfinity) = PFloat NegInf /\
  post_process_nan (PStr s_NaN) = PFloat NaN /\
  (forall v, json_safe v = true -> no_sentinel_string v = true ->
     post_process (pre_process v) = v).
Proof.
  do 6 (split; [reflexivity|]).
  refine (pyval_ind' (fun v => json_safe v = true -> no_sentinel_string v = true ->
                               post_process (pre_process v) = v) _ _ _ _ _ _ _ _);
    try (intros; match goal with
                 | Hj : json_safe ?v = true, Hn : no_sentinel_string ?v = true |- _ =>
                   exact (post_pre_leaf v Hj Hn I)
                 end).
  - intros l IH Hj Hn. simpl in *. f_equal.
    induction IH as [|x l Hx _ IHl]; [reflexivity|].
    simpl in Hj, Hn. apply andb_prop in Hj as [Hjx Hjl].
    apply andb_prop in Hn as [Hnx Hnl].
    simpl. rewrite (Hx Hjx Hnx).
    rewrite (IHl Hjl Hnl). reflexivity.
  - intros kvs IH Hj Hn. simpl in *. f_equal.
    induction IH as [|[k x] l Hx _ IHl]; [reflexivity|].
    simpl in Hj, Hn, Hx. apply andb_prop in Hj as [Hjx Hjl].
    apply andb_prop in Hn as [Hnx Hnl].
    simpl. rewrite (Hx Hjx Hnx).
    rewrite (IHl Hjl Hnl). reflexivity.
Qed.

Lemma codec_roundtrip_witness :
  let ops := mk_ops (fun _ => inr (lit "NotImplementedError")) in
  let m := PDict [(lit "x", PFloat PosInf); (lit "y", PList [PFloat NaN; PInt 3]);
                  (lit "z", PStr (lit "abc"))] in
  post_process (@pre_process ops m) = m.
Proof.
  intros ops m.
  apply (proj2 (proj2 (proj2 (proj2 (proj2 (proj2 (@codec_roundtrip ops))))))).
  - vm_compute. reflexivity.
  - vm_compute. reflexivity.
Defined.

(** C9.  Decoding is not injective on strings: a stored leaf that is the
    genuine string ["NaN"], ["Infinity"] or ["-Infinity"] is decoded to the
    float [nan], [inf] or [-inf]; encoding maps the string ["NaN"] and the
    float [nan] to the same stored value, so the string is not recovered. *)
Theorem decode_sentinel_strings `{PyObjOps} (k : pystr) :
  post_process (PDict [(k, PStr s_NaN)]) = PDict [(k, PFloat NaN)] /\
  post_process (PDict [(k, PStr s_Infinity)]) = PDict [(k, PFloat PosInf)] /\
  post_process (PDict [(k, PStr s_mInfinity)]) = PDict [(k, PFloat NegInf)] /\
  pre_process (PDict [(k, PStr s_NaN)]) = pre_process (PDict [(k, PFloat NaN)]) /\
  post_process (pre_process (PDict [(k, PStr s_NaN)])) <> PDict [(k, PStr s_NaN)].
Proof.
  cbn [post_process pre_process map fst snd].
  rewrite !pre_process_additional_builtin by reflexivity.
  repeat split; cbn; discriminate.
Qed.

(** C7 (counterexample).  An MSONable object with callable [as_dict] and
    [from_dict] whose [as_dict()] raises (monty's default [as_dict] raises
    [NotImplementedError] when it cannot find the constructor arguments)
    makes the construction raise. *)
Lemma msonable_init_as_dict_raises_counterexample :
  let ops := mk_ops (fun _ => inr (lit "NotImplementedError")) in
  let obj := PObj (mk_pyclass false false false false false true false
                              CallableAttr CallableAttr) 1 in
  snd (@msonable_init ops obj node0) = Some (Raised (lit "NotImplementedError")).
Proof. reflexivity. Qed.

(** C7 (as amended).  [MsonableData(obj)] raises [TypeError] when [obj] is
    [None], is not an [MSONable] instance, or lacks a callable [as_dict] or
    [from_dict], and then leaves the node as it was (no attribute recorded).
    For an [MSONable] object with both callable methods the checks pass and
    the object's [as_dict()] is called: if it raises, that exception
    propagates and no attribute is recorded; if it returns a mapping, the
    construction succeeds and records the encoded mapping as attributes. *)
Theorem msonable_init_spec `{PyObjOps} :
  (forall self, exists msg,
     msonable_init PNone self = (self, Some (TypeError msg))) /\
  (forall obj self, isa_msonable (classof obj) = false -> exists msg,
     msonable_init obj self = (self, Some (TypeError msg))) /\
  (forall obj self,
     attr_as_dict (classof obj) <> CallableAttr \/
     attr_from_dict (classof obj) <> CallableAttr -> exists msg,
     msonable_init obj self = (self, Some (TypeError msg))) /\
  (forall obj self exc,
     isa_msonable (classof obj) = true ->
     attr_as_dict (classof obj) = CallableAttr ->
     attr_from_dict (classof obj) = CallableAttr ->
     obj_as_dict obj = inr exc ->
     msonable_init obj self = (mk_node (attributes self) (Some obj), Some (Raised exc))) /\
  (forall obj self kvs,
     isa_msonable (classof obj) = true ->
     attr_as_dict (classof obj) = CallableAttr ->
     attr_from_dict (classof obj) = CallableAttr ->
     obj_as_dict obj = inl (PDict kvs) ->
     msonable_init obj self =
       (mk_node (fold_left set_attribute
                   (map (fun kv => (fst kv, pre_process (snd kv))) kvs)
                   (attributes self)) (Some obj), None)).
Proof.
  split; [|split; [|split; [|split]]].
  - intros self. eexists. reflexivity.
  - intros obj self Hm. destruct obj; try (eexists; reflexivity).
    simpl in Hm |- *. rewrite Hm. eexists. reflexivity.
  - intros obj self Ha. destruct obj; try (eexists; reflexivity).
    unfold msonable_init. destruct (negb (isa_msonable (classof (PObj cls oid))));
      [eexists; reflexivity|].
    destruct Ha as [Ha|Ha].
    + destruct (attr_as_dict (classof (PObj cls oid))); [|eexists; reflexivity|congruence].
      eexists; reflexivity.
    + destruct (attr_as_dict (classof (PObj cls oid))); try (eexists; reflexivity).
      destruct (attr_from_dict (classof (PObj cls oid))); try (eexists; reflexivity).
      congruence.
  - intros obj self exc Hm Ha Hf Hd.
    destruct obj; try discriminate Hm.
    unfold msonable_init. rewrite Hm, Ha, Hf. simpl. rewrite Hd. reflexivity.
  - intros obj self kvs Hm Ha Hf Hd.
    destruct obj; try discriminate Hm.
    unfold msonable_init. rewrite Hm, Ha, Hf. simpl. rewrite Hd. reflexivity.
Qed.

Lemma msonable_init_spec_witness :
  let ops := mk_ops (fun _ => inl (PDict [(lit "@class", PStr (lit "Molecule"))])) in
  (exists msg, @msonable_init ops (PInt 3) node0 = (node0, Some (TypeError msg))) /\
  @msonable_init ops (PObj mson_class 1) node0 =
    (mk_node [(lit "@class", PStr (lit "Molecule"))] (Some (PObj mson_class 1)), None).
Proof.
  intros ops. split.
  - apply (proj1 (proj2 (@msonable_init_spec ops))). reflexivity.
  - rewrite (proj2 (proj2 (proj2 (proj2 (@msonable_init_spec ops))))
               (PObj mson_class 1) node0 [(lit "@class", PStr (lit "Molecule"))])
      by reflexivity.
    vm_compute. reflexivity.
Defined.

(** C10 (counterexample).  A callable [MSONable] value that is also a
    [datetime] is not returned unchanged by [process_additional]: it is
    turned into its [datetime] mapping. *)
Lemma process_additional_callable_datetime_counterexample :
  let ops := mk_ops (fun _ => inr (lit "NotImplementedError")) in
  @pre_process_additional ops (PObj callable_datetime 7) <> PObj callable_datetime 7.
Proof. vm_compute. discriminate. Qed.

(** C10 (as amended).  On a value that is none of [datetime], [UUID],
    [numpy.ndarray], [numpy.generic], [ObjectId], [process_additional]
    returns [_serialize_callable] of it exactly when it is callable and not
    [MSONable], and returns it unchanged otherwise (in particular every
    callable [MSONable] such value is returned unchanged). *)
Theorem process_additional_callable `{PyObjOps} (v : pyval) :
  isa_datetime (classof v) = false -> isa_uuid (classof v) = false ->
  isa_ndarray (classof v) = false -> isa_generic (classof v) = false ->
  isa_objectid (classof v) = false ->
  pre_process_additional v =
    if is_callable (classof v) && negb (isa_msonable (classof v))
    then serialize_callable v else v.
Proof.
  intros Hd Hu Hn Hg Ho. unfold pre_process_additional.
  rewrite Hd, Hu, Hn, Hg, Ho, andb_false_r. reflexivity.
Qed.

Lemma process_additional_callable_witness :
  let ops := mk_ops (fun _ => inr (lit "NotImplementedError")) in
  let c := mk_pyclass false false false false false true true CallableAttr CallableAttr in
  @pre_process_additional ops (PObj c 2) = PObj c 2.
Proof.
  intros ops c.
  rewrite (@process_additional_callable ops (PObj c 2)) by reflexivity.
  reflexivity.
Defined.

End MsonableFacts.

(** ** MSONable data: codec laws and reloading *)
Module MsonableExtraFacts.
Import PyStr PyStrFacts Msonable MsonableFacts.

Section WithOps.
Context `{PyObjOps}.

Lemma post_str s :
  post_process (PStr s) =
    if str_eqb s s_Infinity then PFloat PosInf
    else if str_eqb s s_mInfinity then PFloat NegInf
    else if str_eqb s s_NaN then PFloat NaN
    else PStr s.
Proof. reflexivity. Qed.

Lemma post_str_plain s : sentinel s = false -> post_process (PStr s) = PStr s.
Proof.
  unfold sentinel. intros Hs. rewrite post_str.
  destruct (str_eqb s s_Infinity), (str_eqb s s_mInfinity), (str_eqb s s_NaN);
    try discriminate; reflexivity.
Qed.

(** The leaves of a JSON-safe value go through the sentinel stage only. *)
Lemma pre_leaf v :
  json_safe v = true -> match v with PList _ | PDict _ => False | _ => True end ->
  pre_process v = pre_process_nan v.
Proof.
  intros Hj Hl. destruct v; try contradiction; try discriminate;
    cbn [pre_process]; rewrite pre_process_additional_builtin; reflexivity.
Qed.

(** Decoding undoes encoding up to decoding: on JSON-safe values,
    [post_process (pre_process v) = post_process v]. *)
Lemma post_pre_post v :
  json_safe v = true -> post_process (pre_process v) = post_process v.
Proof.
  revert v.
  refine (pyval_ind' (fun v => json_safe v = true ->
                              post_process (pre_process v) = post_process v)
                     _ _ _ _ _ _ _ _).
  - intros Hj. rewrite pre_leaf by (exact Hj || exact I). reflexivity.
  - intros b Hj. rewrite pre_leaf by (exact Hj || exact I). reflexivity.
  - intros n Hj. rewrite pre_leaf by (exact Hj || exact I). reflexivity.
  - intros f Hj. rewrite pre_leaf by (exact Hj || exact I). destruct f; reflexivity.
  - intros s Hj. rewrite pre_leaf by (exact Hj || exact I). reflexivity.
  - intros l IH Hj. simpl in Hj |- *. f_equal.
    induction IH as [|x l Hx _ IHl]; [reflexivity|].
    simpl in Hj. apply andb_prop in Hj as [Hjx Hjl].
    simpl. rewrite (Hx Hjx), (IHl Hjl). reflexivity.
  - intros kvs IH Hj. simpl in Hj |- *. f_equal.
    induction IH as [|[k x] l Hx _ IHl]; [reflexivity|].
    simpl in Hj, Hx. apply andb_prop in Hj as [Hjx Hjl].
    simpl. rewrite (Hx Hjx), (IHl Hjl). reflexivity.
  - intros c o Hj. discriminate.
Qed.

(** Decoding leaves a value unchanged exactly when none of its string leaves
    is a sentinel. *)
Lemma post_fixed_iff v : post_process v = v <-> no_sentinel_string v = true.
Proof.
  revert v.
  refine (pyval_ind' (fun v => post_process v = v <-> no_sentinel_string v = true)
                     _ _ _ _ _ _ _ _);
    try (intros; split; reflexivity).
  - intros s. cbn [no_sentinel_string]. rewrite post_str. unfold sentinel.
    destruct (str_eqb s s_Infinity), (str_eqb s s_mInfinity), (str_eqb s s_NaN);
      simpl; split; congruence.
  - intros l IH. cbn [post_process no_sentinel_string].
    induction IH as [|x l Hx _ IHl]; [simpl; split; reflexivity|].
    simpl. rewrite andb_true_iff, <- Hx, <- IHl. split.
    + intros E. injection E as E1 E2. rewrite E1, E2. split; reflexivity.
    + intros [E1 E2]. injection E2 as E2. rewrite E1, E2. reflexivity.
  - intros kvs IH. cbn [post_process no_sentinel_string].
    induction IH as [|[k x] l Hx _ IHl]; [simpl; split; reflexivity|].
    simpl in Hx |- *. rewrite andb_true_iff, <- Hx, <- IHl. split.
    + intros E. injection E as E1 E2. rewrite E1, E2. split; reflexivity.
    + intros [E1 E2]. injection E2 as E2. rewrite E1, E2. reflexivity.
Qed.

Lemma post_pre_id v :
  json_safe v = true -> no_sentinel_string v = true -> post_process (pre_process v) = v.
Proof.
  intros Hj Hn. rewrite (post_pre_post v Hj). apply post_fixed_iff. exact Hn.
Qed.

Lemma encode_finite v : json_safe v = true -> finite_floats (pre_process v) = true.
Proof.
  revert v.
  refine (pyval_ind' (fun v => json_safe v = true -> finite_floats (pre_process v) = true)
                     _ _ _ _ _ _ _ _);
    try (intros; rewrite pre_leaf by (assumption || exact I); reflexivity).
  - intros f Hj. rewrite pre_leaf by (exact Hj || exact I). destruct f; reflexivity.
  - intros l IH Hj. simpl in Hj |- *.
    induction IH as [|x l Hx _ IHl]; [reflexivity|].
    simpl in Hj. apply andb_prop in Hj as [Hjx Hjl].
    simpl. rewrite (Hx Hjx), (IHl Hjl). reflexivity.
  - intros kvs IH Hj. simpl in Hj |- *.
    induction IH as [|[k x] l Hx _ IHl]; [reflexivity|].
    simpl in Hj, Hx. apply andb_prop in Hj as [Hjx Hjl].
    simpl. rewrite (Hx Hjx), (IHl Hjl). reflexivity.
Qed.

Lemma pre_leaf_twice v :
  json_safe v = true -> match v with PList _ | PDict _ => False | _ => True end ->
  pre_process (pre_process v) = pre_process v.
Proof.
  intros Hj Hl. rewrite (pre_leaf v Hj Hl).
  destruct v as [| | |f| | | |]; try contradiction; try discriminate; try destruct f;
    cbn [pre_process_nan]; rewrite pre_leaf by (reflexivity || exact I); reflexivity.
Qed.

Lemma encode_idempotent v : json_safe v = true -> pre_process (pre_process v) = pre_process v.
Proof.
  revert v.
  refine (pyval_ind' (fun v => json_safe v = true ->
                              pre_process (pre_process v) = pre_process v)
                     _ _ _ _ _ _ _ _);
    try (intros; apply pre_leaf_twice; [assumption|exact I]).
  - intros l IH Hj. simpl in Hj |- *. f_equal. rewrite map_map.
    induction IH as [|x l Hx _ IHl]; [reflexivity|].
    simpl in Hj. apply andb_prop in Hj as [Hjx Hjl].
    simpl. rewrite (Hx Hjx), (IHl Hjl). reflexivity.
  - intros kvs IH Hj. simpl in Hj |- *. f_equal.
    induction IH as [|[k x] l Hx _ IHl]; [reflexivity|].
    simpl in Hj, Hx. apply andb_prop in Hj as [Hjx Hjl].
    simpl. rewrite (Hx Hjx), (IHl Hjl). reflexivity.
Qed.

End WithOps.

Lemma dict_get_map (f : pyval -> pyval) kvs k :
  dict_get (map (fun kv => (fst kv, f (snd kv))) kvs) k = option_map f (dict_get kvs k).
Proof.
  unfold dict_get. induction kvs as [|[k' v] kvs IH]; [reflexivity|].
  simpl. destruct (str_eqb k' k); [reflexivity|exact IH].
Qed.

Lemma str_eqb_eq a b : str_eqb a b = true <-> a = b.
Proof.
  unfold str_eqb. destruct (list_eq_dec ascii_dec a b); split; congruence.
Qed.

(** Setting attributes with fresh, distinct keys appends them in order. *)
Lemma fold_set_attribute_fresh l acc :
  NoDup (map fst l) ->
  (forall k, In k (map fst l) -> ~ In k (map fst acc)) ->
  fold_left set_attribute l acc = acc ++ l.
Proof.
  revert acc; induction l as [|[k v] l IH]; intros acc Hnd Hfresh.
  - simpl. rewrite app_nil_r. reflexivity.
  - simpl. inversion Hnd as [|k0 l0 Hk Hnd' E]; subst.
    assert (Hset : set_attribute acc (k, v) = acc ++ [(k, v)]).
    { unfold set_attribute. f_equal. apply forallb_filter_id.
      apply forallb_forall. intros [k' v'] Hin. simpl.
      destruct (str_eqb k' k) eqn:E; [|reflexivity].
      apply str_eqb_eq in E. subst k'. exfalso.
      apply (Hfresh k (or_introl eq_refl)). apply in_map_iff.
      exists (k, v'). split; [reflexivity|exact Hin]. }
    rewrite Hset, IH.
    + rewrite <- app_assoc. reflexivity.
    + exact Hnd'.
    + intros k' Hin. rewrite map_app. simpl. rewrite in_app_iff. simpl.
      intros [H1|[H1|[]]].
      * exact (Hfresh k' (or_intror Hin) H1).
      * subst k'. exact (Hk Hin).
Qed.

Section GetObjectFacts.
Variable pyclass_obj : Type.
Variable import_module : pystr -> option (pystr -> option pyclass_obj).
Variable from_dict : pyclass_obj -> pyval -> pyval + pystr.

Lemma get_object_ok_cached self self' o :
  get_object pyclass_obj import_module from_dict self = (self', inl o) ->
  cached_obj self' = Some o /\ attributes self' = attributes self.
Proof.
  unfold get_object. destruct (cached_obj self) as [c|] eqn:Ec.
  - intros E. injection E as <- <-. split; [exact Ec|reflexivity].
  - destruct (dict_get _ s_class) as [cv|]; [|discriminate].
    destruct (dict_get _ s_module) as [[| | | |m| | |]|]; try discriminate.
    destruct (import_module m) as [md|]; [|discriminate].
    destruct cv; try discriminate.
    destruct (md s) as [cls|]; [|discriminate].
    destruct (from_dict cls _) as [obj|exc]; [|discriminate].
    intros E. injection E as <- <-. split; reflexivity.
Qed.

Lemma get_object_err_same self self' e :
  get_object pyclass_obj import_module from_dict self = (self', inr e) -> self' = self.
Proof.
  unfold get_object. destruct (cached_obj self) as [c|]; [discriminate|].
  destruct (dict_get _ s_class) as [cv|]; [|congruence].
  destruct (dict_get _ s_module) as [[| | | |m| | |]|]; try congruence.
  destruct (import_module m) as [md|]; [|congruence].
  destruct cv; try congruence.
  destruct (md s) as [cls|]; [|congruence].
  destruct (from_dict cls _) as [obj|exc]; congruence.
Qed.

End GetObjectFacts.

Section InitFacts.
Context `{PyObjOps}.

Lemma init_success obj self self' :
  msonable_init obj self = (self', None) ->
  cached_obj self' = Some obj /\
  exists d kvs', obj_as_dict obj = inl d /\ pre_process d = PDict kvs' /\
    attributes self' = fold_left set_attribute kvs' (attributes self).
Proof.
  unfold msonable_init.
  destruct obj; [discriminate| ..];
  (destruct (negb _); [discriminate|];
   destruct (method_check "as_dict" _); [discriminate|];
   destruct (method_check "from_dict" _); [discriminate|];
   destruct (obj_as_dict _) as [d|exc] eqn:Ed; [|discriminate];
   unfold set_attribute_many;
   destruct (pre_process d) as [| | | | | |kvs'|] eqn:Ep; try discriminate;
   intros Hi; injection Hi as <-; split; [reflexivity|];
   exists d, kvs'; split; [reflexivity|]; split; [exact Ep|reflexivity]).
Qed.

End InitFacts.

Lemma post_sentinel_float s : sentinel s = true -> exists f, post_process (PStr s) = PFloat f.
Proof.
  unfold sentinel. intros Hs. rewrite post_str.
  destruct (str_eqb s s_Infinity), (str_eqb s s_mInfinity), (str_eqb s s_NaN);
    try discriminate; eexists; reflexivity.
Qed.

(** Encoding a JSON-safe value leaves no infinite or NaN float in it: what
    is stored as attributes is valid JSON. *)
Theorem encode_finite_floats `{PyObjOps} (v : pyval) :
  json_safe v = true -> finite_floats (pre_process v) = true.
Proof. apply encode_finite. Qed.

(** [JSONPreprocessor.process] is idempotent on JSON-safe values: encoding
    an already encoded mapping changes nothing. *)
Theorem pre_process_idempotent `{PyObjOps} (v : pyval) :
  json_safe v = true -> pre_process (pre_process v) = pre_process v.
Proof. apply encode_idempotent. Qed.

(** [JSONPostprocessor.process] changes a value exactly when one of its
    string leaves is ["Infinity"], ["-Infinity"] or ["NaN"]; decoding twice
    is decoding once. *)
Theorem post_process_fixed_points (v : pyval) :
  (post_process v = v <-> no_sentinel_string v = true) /\
  post_process (post_process v) = post_process v.
Proof.
  split; [apply post_fixed_iff|].
  apply post_fixed_iff.
  revert v.
  refine (pyval_ind' (fun v => no_sentinel_string (post_process v) = true)
                     _ _ _ _ _ _ _ _); try reflexivity.
  - intros s. rewrite post_str. unfold sentinel.
    destruct (str_eqb s s_Infinity) eqn:E1; [reflexivity|].
    destruct (str_eqb s s_mInfinity) eqn:E2; [reflexivity|].
    destruct (str_eqb s s_NaN) eqn:E3; [reflexivity|].
    cbn [no_sentinel_string]. unfold sentinel. rewrite E1, E2, E3. reflexivity.
  - intros l IH. cbn [post_process no_sentinel_string].
    induction IH as [|x l Hx _ IHl]; [reflexivity|].
    simpl. rewrite Hx. exact IHl.
  - intros kvs IH. cbn [post_process no_sentinel_string].
    induction IH as [|[k x] l Hx _ IHl]; [reflexivity|].
    simpl in Hx |- *. rewrite Hx. exact IHl.
Qed.

(** On JSON-safe values, decoding the encoding is decoding the original:
    [post_process (pre_process v) = post_process v]; the only loss of the
    round trip is the decoding of genuine sentinel strings. *)
Theorem decode_encode_is_decode `{PyObjOps} (v : pyval) :
  json_safe v = true -> post_process (pre_process v) = post_process v.
Proof. apply post_pre_post. Qed.

(** A [numpy.ndarray] (not a [datetime] or [UUID]) is stored as the numpy
    mapping whose [data] is what [tolist()] (or [real.tolist()] and
    [imag.tolist()] for a complex dtype) returns, as is: the infinities and
    NaNs inside the array are not given the sentinel encoding. *)
Theorem ndarray_data_verbatim `{PyObjOps} (c : pyclass) (o : Z) :
  isa_datetime c = false -> isa_uuid c = false -> isa_ndarray c = true ->
  pre_process (PObj c o) =
    PDict [(s_module, PStr (lit "numpy")); (s_class, PStr (lit "array"));
           (lit "dtype", PStr (obj_dtype_str (PObj c o)));
           (lit "data", if startswith (obj_dtype_str (PObj c o)) (lit "complex")
                        then PList [obj_real_tolist (PObj c o); obj_imag_tolist (PObj c o)]
                        else obj_tolist (PObj c o))].
Proof.
  intros Hd Hu Hn. cbn [pre_process]. unfold pre_process_additional.
  cbn [classof]. rewrite Hd, Hu. cbv zeta. cbn [classof]. rewrite Hn.
  destruct (startswith (obj_dtype_str (PObj c o)) (lit "complex"));
    cbn [classof builtin_class isa_objectid is_callable isa_msonable];
    rewrite andb_false_r; reflexivity.
Qed.

(** After a successful [MsonableData(obj)], the [obj] property returns that
    very object, the node unchanged ([from_dict] is not called). *)
Theorem obj_after_init `{PyObjOps} (pyclass_obj : Type)
    (import_module : pystr -> option (pystr -> option pyclass_obj))
    (from_dict : pyclass_obj -> pyval -> pyval + pystr) (obj : pyval) (self self' : node) :
  msonable_init obj self = (self', None) ->
  get_object pyclass_obj import_module from_dict self' = (self', inl obj).
Proof.
  intros Hi. destruct (init_success obj self self' Hi) as [Hc _].
  unfold get_object. rewrite Hc. reflexivity.
Qed.

(** [_get_object] caches what it rebuilds: once it returned an object, the
    node keeps its attributes and every later call returns the same object
    without calling [from_dict] again. *)
Theorem get_object_caches (pyclass_obj : Type)
    (import_module : pystr -> option (pystr -> option pyclass_obj))
    (from_dict : pyclass_obj -> pyval -> pyval + pystr) (self self' : node) (o : pyval) :
  get_object pyclass_obj import_module from_dict self = (self', inl o) ->
  attributes self' = attributes self /\
  forall (import_module' : pystr -> option (pystr -> option pyclass_obj))
         (from_dict' : pyclass_obj -> pyval -> pyval + pystr),
    get_object pyclass_obj import_module' from_dict' self' = (self', inl o).
Proof.
  intros Hg. destruct (get_object_ok_cached _ _ _ _ _ _ Hg) as [Hc Ha].
  split; [exact Ha|]. intros im fd. unfold get_object. rewrite Hc. reflexivity.
Qed.

(** Failures of [_get_object] leave the node as it was (nothing cached);
    when nothing is cached, a missing [@class] or [@module] attribute raises
    [KeyError], and a [@module] attribute that decodes to a float (a
    sentinel string) makes [import_module] fail with an uncaught error. *)
Theorem get_object_failures (pyclass_obj : Type)
    (import_module : pystr -> option (pystr -> option pyclass_obj))
    (from_dict : pyclass_obj -> pyval -> pyval + pystr) (self : node) :
  (forall self' e, get_object pyclass_obj import_module from_dict self = (self', inr e) ->
     self' = self) /\
  (cached_obj self = None -> dict_get (attributes self) s_class = None ->
     get_object pyclass_obj import_module from_dict self = (self, inr (KeyError s_class))) /\
  (forall cv, cached_obj self = None -> dict_get (attributes self) s_class = Some cv ->
     dict_get (attributes self) s_module = None ->
     get_object pyclass_obj import_module from_dict self = (self, inr (KeyError s_module))) /\
  (forall cv mn, cached_obj self = None -> dict_get (attributes self) s_class = Some cv ->
     dict_get (attributes self) s_module = Some (PStr mn) -> sentinel mn = true ->
     get_object pyclass_obj import_module from_dict self = (self, inr UncaughtError)).
Proof.
  split; [|split; [|split]].
  - apply get_object_err_same.
  - intros Hc Hk. unfold get_object. rewrite Hc, dict_get_map, Hk. reflexivity.
  - intros cv Hc Hk Hm. unfold get_object. rewrite Hc, !dict_get_map, Hk, Hm. reflexivity.
  - intros cv mn Hc Hk Hm Hs. unfold get_object. rewrite Hc, !dict_get_map, Hk, Hm.
    destruct (post_sentinel_float mn Hs) as [f Ef]. cbn [option_map]. rewrite Ef.
    reflexivity.
Qed.

(** With [@class] and [@module] strings (not sentinels) stored and nothing
    cached: a module that cannot be imported raises the [ImportError] naming
    it, and a module without the class raises the [ImportError] naming both;
    the node is left unchanged. *)
Theorem get_object_import_errors (pyclass_obj : Type)
    (import_module : pystr -> option (pystr -> option pyclass_obj))
    (from_dict : pyclass_obj -> pyval -> pyval + pystr) (self : node) (cn mn : pystr) :
  cached_obj self = None ->
  dict_get (attributes self) s_class = Some (PStr cn) -> sentinel cn = false ->
  dict_get (attributes self) s_module = Some (PStr mn) -> sentinel mn = false ->
  (import_module mn = None ->
     get_object pyclass_obj import_module from_dict self =
       (self, inr (ImportError (msg_cannot_import mn)))) /\
  (forall md, import_module mn = Some md -> md cn = None ->
     get_object pyclass_obj import_module from_dict self =
       (self, inr (ImportError (msg_no_class mn cn)))).
Proof.
  intros Hc Hk Hsk Hm Hsm. split.
  - intros Hi. unfold get_object. rewrite Hc, !dict_get_map, Hk, Hm.
    cbn [option_map]. rewrite (post_str_plain mn Hsm), Hi. reflexivity.
  - intros md Hi Hmd. unfold get_object. rewrite Hc, !dict_get_map, Hk, Hm.
    cbn [option_map]. rewrite (post_str_plain mn Hsm), Hi, (post_str_plain cn Hsk), Hmd.
    reflexivity.
Qed.

(** Store and reload: for an [MSONable] object whose [as_dict()] is a
    JSON-safe mapping with distinct keys, no sentinel string, and string
    [@module] and [@class] entries, reloading the node built by
    [MsonableData(obj)] (its attributes, without the cached object) calls
    [cls.from_dict] on exactly the mapping [as_dict()] returned, and caches
    what it returns. *)
Theorem msonable_store_reload `{PyObjOps} (pyclass_obj : Type)
    (import_module : pystr -> option (pystr -> option pyclass_obj))
    (from_dict : pyclass_obj -> pyval -> pyval + pystr)
    (obj : pyval) (kvs : list (pystr * pyval)) (self' : node)
    (mn cn : pystr) (md : pystr -> option pyclass_obj) (cls : pyclass_obj) :
  obj_as_dict obj = inl (PDict kvs) ->
  msonable_init obj node0 = (self', None) ->
  forallb (fun kv => json_safe (snd kv) && no_sentinel_string (snd kv)) kvs = true ->
  unique_keys kvs ->
  dict_get kvs s_module = Some (PStr mn) -> dict_get kvs s_class = Some (PStr cn) ->
  import_module mn = Some md -> md cn = Some cls ->
  get_object pyclass_obj import_module from_dict (mk_node (attributes self') None) =
    match from_dict cls (PDict kvs) with
    | inl o => (mk_node (attributes self') (Some o), inl o)
    | inr exc => (mk_node (attributes self') None, inr (FromDictRaised exc))
    end.
Proof.
  intros Hd Hi Hkv Hu Hm Hc Him Hmd.
  destruct (init_success obj node0 self' Hi) as (_ & d & kvs' & Hd' & Hp & Ha).
  rewrite Hd in Hd'. injection Hd' as <-. cbn [pre_process] in Hp.
  injection Hp as <-.
  assert (Hdec : map (fun kv => (fst kv, post_process (snd kv)))
                   (map (fun kv => (fst kv, pre_process (snd kv))) kvs) = kvs).
  { clear -Hkv. induction kvs as [|[k v] l IH]; [reflexivity|].
    simpl in Hkv |- *. apply andb_prop in Hkv as [Hv Hl].
    apply andb_prop in Hv as [Hj Hn].
    rewrite (post_pre_id v Hj Hn), (IH Hl). reflexivity. }
  assert (Hattr : attributes self' = map (fun kv => (fst kv, pre_process (snd kv))) kvs).
  { rewrite Ha. cbn [attributes node0]. apply fold_set_attribute_fresh.
    - rewrite map_map. cbn [fst]. exact Hu.
    - intros k _ []. }
  unfold get_object. cbn [cached_obj Msonable.attributes].
  rewrite Hattr, Hdec, Hc, Hm, Him. cbn [post_process].
  rewrite Hmd. reflexivity.
Qed.

Lemma encode_finite_floats_witness :
  let ops := mk_ops (fun _ => inr (lit "NotImplementedError")) in
  finite_floats (@pre_process ops (PDict [(lit "x", PFloat PosInf);
                                          (lit "y", PList [PFloat NaN; PFloat NegInf])]))
    = true.
Proof. intros ops. apply encode_finite_floats. reflexivity. Defined.

Lemma pre_process_idempotent_witness :
  let ops := mk_ops (fun _ => inr (lit "NotImplementedError")) in
  let v := PDict [(lit "x", PFloat PosInf); (lit "y", PStr s_NaN)] in
  @pre_process ops (@pre_process ops v) = @pre_process ops v.
Proof. intros ops v. apply pre_process_idempotent. reflexivity. Defined.

Lemma post_process_fixed_points_witness :
  post_process (PDict [(lit "x", PStr (lit "abc"))]) = PDict [(lit "x", PStr (lit "abc"))] /\
  post_process (post_process (PList [PStr s_NaN])) = post_process (PList [PStr s_NaN]).
Proof.
  split.
  - apply (proj1 (post_process_fixed_points _)). reflexivity.
  - apply (proj2 (post_process_fixed_points _)).
Defined.

Lemma decode_encode_is_decode_witness :
  let ops := mk_ops (fun _ => inr (lit "NotImplementedError")) in
  let v := PDict [(lit "x", PFloat NaN); (lit "y", PStr s_Infinity)] in
  post_process (@pre_process ops v) = post_process v.
Proof. intros ops v. apply decode_encode_is_decode. reflexivity. Defined.

Lemma ndarray_data_verbatim_witness :
  let ops := {| obj_str := fun _ => [];
                obj_dtype_str := fun _ => lit "float64";
                obj_tolist := fun _ => PList [PFloat NaN; PFloat (Finite 1)];
                obj_real_tolist := fun _ => PList [];
                obj_imag_tolist := fun _ => PList [];
                obj_item := fun _ => PNone;
                serialize_callable := fun _ => PNone;
                obj_as_dict := fun _ => inr (lit "NotImplementedError");
                bson_imported := true |} in
  let nd := mk_pyclass false false true false false false false Absent Absent in
  @pre_process ops (PObj nd 1) =
    PDict [(s_module, PStr (lit "numpy")); (s_class, PStr (lit "array"));
           (lit "dtype", PStr (lit "float64"));
           (lit "data", PList [PFloat NaN; PFloat (Finite 1)])] /\
  finite_floats (@pre_process ops (PObj nd 1)) = false.
Proof.
  intros ops nd.
  rewrite (@ndarray_data_verbatim ops nd 1 eq_refl eq_refl eq_refl).
  split; reflexivity.
Defined.

Lemma obj_after_init_witness :
  let ops := mk_ops (fun _ => inl (PDict [(s_class, PStr (lit "Molecule"))])) in
  let self' := mk_node [(s_class, PStr (lit "Molecule"))] (Some (PObj mson_class 1)) in
  get_object unit (fun _ => None) (fun _ _ => inr (lit "ValueError")) self' =
    (self', inl (PObj mson_class 1)).
Proof.
  intros ops self'.
  apply (@obj_after_init ops unit _ _ (PObj mson_class 1) node0 self').
  vm_compute. reflexivity.
Defined.

Lemma get_object_caches_witness :
  let im := fun (_ : pystr) => Some (fun (_ : pystr) => Some tt) in
  let fd := fun (_ : unit) (_ : pyval) => @inl pyval pystr (PInt 5) in
  let self := mk_node [(s_class, PStr (lit "C")); (s_module, PStr (lit "m"))] None in
  get_object unit (fun _ => None) (fun _ _ => inr []) (fst (get_object unit im fd self)) =
    (fst (get_object unit im fd self), inl (PInt 5)).
Proof.
  intros im fd self.
  apply (proj2 (get_object_caches unit im fd self (fst (get_object unit im fd self)) (PInt 5)
                  eq_refl)).
Defined.

Lemma get_object_failures_witness :
  let self := mk_node [(s_module, PStr (lit "m"))] None in
  let self2 := mk_node [(s_class, PStr (lit "C")); (s_module, PStr s_NaN)] None in
  get_object unit (fun _ => None) (fun _ _ => inr []) self = (self, inr (KeyError s_class)) /\
  get_object unit (fun _ => None) (fun _ _ => inr []) self2 = (self2, inr UncaughtError).
Proof.
  intros self self2. split.
  - apply (proj1 (proj2 (get_object_failures unit _ _ self))); reflexivity.
  - apply (proj2 (proj2 (proj2 (get_object_failures unit _ _ self2)))
             (PStr (lit "C")) s_NaN); reflexivity.
Defined.

Lemma get_object_import_errors_witness :
  let self := mk_node [(s_class, PStr (lit "Molecule")); (s_module, PStr (lit "pymatgen"))]
                      None in
  get_object unit (fun _ => None) (fun _ _ => inr []) self =
    (self, inr (ImportError (msg_cannot_import (lit "pymatgen")))).
Proof.
  intros self.
  apply (proj1 (get_object_import_errors unit (fun _ => None) (fun _ _ => inr []) self
                  (lit "Molecule") (lit "pymatgen") eq_refl eq_refl eq_refl eq_refl eq_refl)).
  reflexivity.
Defined.

Lemma msonable_store_reload_witness :
  let kvs := [(s_module, PStr (lit "pymatgen.core")); (s_class, PStr (lit "Molecule"));
              (lit "charge", PFloat (Finite 0)); (lit "spin", PNone)] in
  let ops := mk_ops (fun _ => inl (PDict kvs)) in
  let md := fun c => if list_eq_dec ascii_dec c (lit "Molecule") then Some tt else None in
  let im := fun m => if list_eq_dec ascii_dec m (lit "pymatgen.core") then Some md else None in
  let fd := fun (_ : unit) (d : pyval) =>
    if match d with PDict l => Nat.eqb (List.length l) 4 | _ => false end
    then @inl pyval pystr (PObj mson_class 2) else inr (lit "KeyError") in
  let self' := fst (@msonable_init ops (PObj mson_class 1) node0) in
  get_object unit im fd (mk_node (attributes self') None) =
    (mk_node (attributes self') (Some (PObj mson_class 2)), inl (PObj mson_class 2)).
Proof.
  intros kvs ops md im fd self'.
  rewrite (@msonable_store_reload ops unit im fd (PObj mson_class 1) kvs self'
             (lit "pymatgen.core") (lit "Molecule") md tt).
  - reflexivity.
  - reflexivity.
  - vm_compute. reflexivity.
  - reflexivity.
  - unfold unique_keys. simpl.
    repeat constructor; simpl; intuition discriminate.
  - reflexivity.
  - reflexivity.
  - reflexivity.
  - reflexivity.
Defined.

End MsonableExtraFacts.

(** ** [verdi computer setup] *)
Module ComputerSetupFacts.
Import PyStr ComputerSetup.

(** C8.  With the other options valid (fresh label, known transport and
    scheduler, shebang starting with [#!], valid [mpirun-command]): an
    omitted or [0] [mpiprocs-per-machine] stores a resource without a
    default; a negative one exits non-zero with a "must be positive"
    diagnostic and stores nothing; a positive one is stored as given. *)
Theorem setup_default_mpiprocs
    (transport_known scheduler_known mpirun_template_ok : pystr -> bool)
    (o : setup_options) (store : list resource) :
  existsb (fun r => str_eqb (r_label r) (opt_label o)) store = false ->
  transport_known (opt_transport o) = true ->
  scheduler_known (opt_scheduler o) = true ->
  startswith (opt_shebang o) (lit "#!") = true ->
  mpirun_template_ok (opt_mpirun_command o) = true ->
  let stored mpi :=
    store ++ [mk_resource (opt_label o) (opt_transport o) (opt_scheduler o)
                          (opt_shebang o) (opt_mpirun_command o) mpi] in
  let run := computer_setup transport_known scheduler_known mpirun_template_ok o store in
  ((opt_mpiprocs_per_machine o = None \/ opt_mpiprocs_per_machine o = Some 0%Z) ->
     run = (0, [], stored None)) /\
  (forall n, opt_mpiprocs_per_machine o = Some n -> (n < 0)%Z ->
     exists msg, run = (1, msg, store) /\ contains msg (lit "must be positive") = true) /\
  (forall n, opt_mpiprocs_per_machine o = Some n -> (0 < n)%Z ->
     run = (0, [], stored (Some n))).
Proof.
  intros Hl Ht Hs Hsh Hm stored run.
  assert (Hrun : run = match validate_mpiprocs (opt_mpiprocs_per_machine o) with
                       | inr msg => (1, msg, store)
                       | inl mpi => (0, [], stored mpi)
                       end).
  { unfold run, computer_setup. rewrite Hl, Ht, Hs, Hsh, Hm. reflexivity. }
  rewrite Hrun. split; [|split].
  - intros [E|E]; rewrite E; reflexivity.
  - intros n E Hn. rewrite E. simpl.
    replace (n =? 0)%Z with false by (symmetry; apply Z.eqb_neq; lia).
    replace (n <? 0)%Z with true by (symmetry; apply Z.ltb_lt; lia).
    eexists. split; [reflexivity|]. vm_compute. reflexivity.
  - intros n E Hn. rewrite E. simpl.
    replace (n =? 0)%Z with false by (symmetry; apply Z.eqb_neq; lia).
    replace (n <? 0)%Z with false by (symmetry; apply Z.ltb_ge; lia).
    reflexivity.
Qed.

Lemma setup_default_mpiprocs_witness :
  let o := mk_options (lit "noninteractive_computer") (lit "local") (lit "direct")
                      (lit "#!/bin/bash") (lit "mpirun -np {tot_num_mpiprocs}")
                      (Some (-1)%Z) in
  exists msg,
    computer_setup (fun _ => true) (fun _ => true) (fun _ => true) o [] = (1, msg, []) /\
    contains msg (lit "must be positive") = true.
Proof.
  intros o.
  apply (proj1 (proj2 (setup_default_mpiprocs (fun _ => true) (fun _ => true)
                         (fun _ => true) o [] eq_refl eq_refl eq_refl eq_refl eq_refl))
           (-1)%Z); [reflexivity|lia].
Defined.

End ComputerSetupFacts.

(** ** Option dictionaries of the [verdi computer] tests *)
Module TestComputerFacts.
Import PyStr TestComputer.

Lemma str_eqb_true a b : str_eqb a b = true <-> a = b.
Proof. unfold str_eqb. destruct (list_eq_dec ascii_dec a b); split; congruence. Qed.

Lemma str_eqb_sym a b : str_eqb a b = str_eqb b a.
Proof.
  unfold str_eqb.
  destruct (list_eq_dec ascii_dec a b), (list_eq_dec ascii_dec b a); congruence.
Qed.

Lemma od_get_cons k0 v0 d k :
  od_get ((k0, v0) :: d) k = if str_eqb k0 k then Some v0 else od_get d k.
Proof. unfold od_get. simpl. destruct (str_eqb k0 k); reflexivity. Qed.

Lemma od_get_app d1 d2 k :
  od_get (d1 ++ d2) k = match od_get d1 k with Some v => Some v | None => od_get d2 k end.
Proof.
  induction d1 as [|[k0 v0] d1 IH]; [reflexivity|].
  simpl. rewrite !od_get_cons. destruct (str_eqb k0 k); [reflexivity|exact IH].
Qed.

Lemma od_get_absent d k : ~ In k (map fst d) -> od_get d k = None.
Proof.
  induction d as [|[k0 v0] d IH]; intros Hk; [reflexivity|].
  rewrite od_get_cons. destruct (str_eqb k0 k) eqn:E.
  - apply str_eqb_true in E. subst. exfalso. apply Hk. left. reflexivity.
  - apply IH. intros H. apply Hk. right. exact H.
Qed.

(** [d[k] = v] then [d[k']]. *)
Lemma od_get_set d k v k' :
  od_get (od_set d k v) k' = if str_eqb k k' then Some v else od_get d k'.
Proof.
  induction d as [|[k0 v0] d IH].
  - simpl. rewrite od_get_cons. reflexivity.
  - cbn [od_set]. destruct (str_eqb k0 k) eqn:E.
    + apply str_eqb_true in E. subst k0. rewrite !od_get_cons.
      destruct (str_eqb k k'); reflexivity.
    + rewrite !od_get_cons, IH.
      destruct (str_eqb k0 k') eqn:E1, (str_eqb k k') eqn:E2; try reflexivity.
      apply str_eqb_true in E1, E2. subst.
      rewrite (proj2 (str_eqb_true k' k') eq_refl) in E. discriminate.
Qed.

Lemma od_get_rev d k : NoDup (map fst d) -> od_get (rev d) k = od_get d k.
Proof.
  induction d as [|[k0 v0] d IH]; intros Hnd; [reflexivity|].
  inversion Hnd as [|x l Hk Hnd' E]; subst. simpl.
  rewrite od_get_app, IH by exact Hnd'. rewrite !od_get_cons.
  destruct (str_eqb k0 k) eqn:E.
  - apply str_eqb_true in E. subst k0. rewrite od_get_absent by exact Hk.
    reflexivity.
  - destruct (od_get d k); reflexivity.
Qed.

(** Setting items one after the other: the last setting of a key wins, the
    other keys keep their values. *)
Lemma od_get_set_all d kvs k :
  od_get (od_set_all d kvs) k =
    match od_get (rev kvs) k with Some v => Some v | None => od_get d k end.
Proof.
  unfold od_set_all. revert d; induction kvs as [|[k0 v0] kvs IH]; intros d;
    [reflexivity|].
  cbn [fold_left fst snd]. rewrite IH. simpl. rewrite od_get_app, od_get_set.
  destruct (od_get (rev kvs) k); [reflexivity|].
  rewrite od_get_cons. destruct (str_eqb k0 k); reflexivity.
Qed.

Lemma od_set_keys d k v :
  In k (map fst d) -> map fst (od_set d k v) = map fst d.
Proof.
  induction d as [|[k0 v0] d IH]; intros Hk; [destruct Hk|].
  cbn [od_set]. destruct (str_eqb k0 k) eqn:E; [reflexivity|].
  simpl. rewrite IH; [reflexivity|].
  destruct Hk as [Hk|Hk]; [|exact Hk].
  simpl in Hk. subst k0. exfalso.
  rewrite (proj2 (str_eqb_true k k) eq_refl) in E. discriminate.
Qed.

Lemma od_set_all_keys d kvs :
  (forall kv, In kv kvs -> In (fst kv) (map fst d)) ->
  map fst (od_set_all d kvs) = map fst d.
Proof.
  unfold od_set_all. revert d; induction kvs as [|kv kvs IH]; intros d Hin;
    [reflexivity|].
  cbn [fold_left].
  assert (Hk : map fst (od_set d (fst kv) (snd kv)) = map fst d)
    by (apply od_set_keys, Hin; left; reflexivity).
  rewrite IH, Hk; [reflexivity|].
  intros kv' H'. rewrite Hk. apply Hin. right. exact H'.
Qed.

Lemma defaults_nodup : NoDup (map fst valid_noninteractive_defaults).
Proof. simpl. repeat constructor; simpl; intuition discriminate. Qed.

(** [generate_setup_options_dict(replace_args, non_interactive)][k]: the
    last value [replace_args] gives [k], else the default value, else [None]
    for the [non-interactive] flag when it was asked for; other keys are
    absent. *)
Theorem generate_setup_options_dict_get (replace_args : odict) (non_interactive : bool)
    (k : pystr) :
  od_get (generate_setup_options_dict replace_args non_interactive) k =
    match od_get (rev replace_args) k with
    | Some v => Some v
    | None =>
      match od_get valid_noninteractive_defaults k with
      | Some v => Some v
      | None =>
        if non_interactive && str_eqb (lit "non-interactive") k then Some None else None
      end
    end.
Proof.
  unfold generate_setup_options_dict. rewrite !od_get_set_all.
  destruct (od_get (rev replace_args) k); [reflexivity|].
  rewrite od_get_rev by exact defaults_nodup.
  destruct (od_get valid_noninteractive_defaults k); [reflexivity|].
  destruct non_interactive; [|reflexivity].
  rewrite od_get_cons. destruct (str_eqb _ k); reflexivity.
Qed.

(** Replacing only default options keeps the options, and so the command
    line [generate_setup_options] builds, in the order of the defaults,
    after the [--non-interactive] flag when it was asked for. *)
Theorem generate_setup_options_dict_order (replace_args : odict) (non_interactive : bool) :
  (forall kv, In kv replace_args -> In (fst kv) (map fst valid_noninteractive_defaults)) ->
  map fst (generate_setup_options_dict replace_args non_interactive) =
    (if non_interactive then [lit "non-interactive"] else [])
    ++ map fst valid_noninteractive_defaults /\
  (non_interactive = true ->
   hd_error (generate_setup_options (generate_setup_options_dict replace_args true)) =
     Some (lit "--non-interactive")).
Proof.
  intros Hin.
  assert (Hk : forall ni,
    map fst (generate_setup_options_dict replace_args ni) =
      (if ni then [lit "non-interactive"] else []) ++ map fst valid_noninteractive_defaults).
  { intros ni. unfold generate_setup_options_dict. rewrite od_set_all_keys.
    - destruct ni; reflexivity.
    - intros kv H. replace (map fst (od_set_all _ _)) with
        ((if ni then [lit "non-interactive"] else []) ++ map fst valid_noninteractive_defaults)
        by (destruct ni; reflexivity).
      apply in_or_app. right. apply Hin. exact H. }
  split; [apply Hk|]. intros _.
  pose proof (Hk true) as H1. unfold generate_setup_options.
  destruct (generate_setup_options_dict replace_args true) as [|[k0 v0] d] eqn:E;
    [discriminate|].
  simpl in H1. injection H1 as Hk0 _. subst k0.
  assert (Hv : v0 = None).
  { pose proof (generate_setup_options_dict_get replace_args true (lit "non-interactive"))
      as G.
    rewrite E, od_get_cons in G. rewrite (proj2 (str_eqb_true _ _) eq_refl) in G.
    rewrite od_get_absent in G.
    - vm_compute in G. injection G as G. exact G.
    - rewrite map_rev, <- in_rev. intros Hr. apply in_map_iff in Hr as ([kk vv] & Ekk & Hkv).
      simpl in Ekk. subst kk. apply Hin in Hkv. simpl in Hkv.
      intuition discriminate. }
  subst v0. reflexivity.
Qed.

Lemma generate_setup_options_dict_order_witness :
  map fst (generate_setup_options_dict [(lit "label", Some (lit "comp2"))] true) =
    lit "non-interactive" :: map fst valid_noninteractive_defaults /\
  hd_error (generate_setup_options
              (generate_setup_options_dict [(lit "label", Some (lit "comp2"))] true)) =
    Some (lit "--non-interactive").
Proof.
  destruct (generate_setup_options_dict_order [(lit "label", Some (lit "comp2"))] true)
    as [H1 H2].
  - intros kv [<-|[]]. simpl. tauto.
  - split; [exact H1|]. apply H2. reflexivity.
Defined.

End TestComputerFacts.
